(** * Context-editing decision policy: [determineEditStrategies]

    Shallow embedding of [determineEditStrategies] from
    [src/app/protected/layout.tsx] and the properties stated about it.

    Conventions of the embedding:
    - a JavaScript [number] that holds a count (tokens, thresholds,
      counters) is an integer of [Z];
    - [TokenCounts | null] and every optional field ([x?: T]) are [option];
    - a value of type [unknown] is a [JsValue];
    - [console.debug] appends to an explicit console log, threaded through
      the function by a small state monad ([Eff]);
    - the [for ... of] loop over the messages is a [fold_left] of its body
      over the two counters it updates;
    - where the identity of the returned array matters, the array is an
      object in a heap ([determineEditStrategies_world]).

    After the policy come further properties of it, then the error
    utilities of [src/lib/chat-errors.ts] (module [ChatErrors]) and the
    functions of [src/app/protected/layout.tsx] that produce its input and
    consume its output (module [Acontext]). *)

From Stdlib Require Import ZArith QArith Qround List String Ascii Bool Arith Lia Permutation DecimalString.
Import ListNotations.

Local Open Scope string_scope.
Local Open Scope list_scope.
Local Open Scope Z_scope.
Set Warnings "-register-all".

(** ** JavaScript values and primitives *)

Module Js.

(** The values a field of type [unknown] may hold. *)
Inductive JsValue : Type :=
| JsUndefined
| JsNull
| JsBoolean (b : bool)
| JsNumber (n : Z)
| JsString (s : string)
| JsArray (elems : list JsValue)
| JsObject (fields : list (string * JsValue)).

(** Truthiness, as tested by [if (v)]: [undefined], [null], [false], [0]
    and the empty string are falsy; arrays and objects are always truthy. *)
Definition ToBoolean (v : JsValue) : bool :=
  match v with
  | JsUndefined => false
  | JsNull => false
  | JsBoolean b => b
  | JsNumber n => negb (n =? 0)
  | JsString s => negb (String.eqb s EmptyString)
  | JsArray _ => true
  | JsObject _ => true
  end.

Definition Array_isArray (v : JsValue) : bool :=
  match v with
  | JsArray _ => true
  | _ => false
  end.

(** [a ?? b] on an optional numeric field. *)
Definition nullish {A : Type} (a : option A) (b : A) : A :=
  match a with
  | Some x => x
  | None => b
  end.

(** [Math.floor] of a quotient and [Math.max] on counts.  The division
    [t / 2] of the source is the exact one; [Math.floor] rounds down. *)
Definition Math_floor (q : Q) : Z := Qfloor q.
Definition Math_max (a b : Z) : Z := Z.max a b.
Definition half (t : Z) : Q := (inject_Z t / inject_Z 2)%Q.

End Js.
Import Js.

(** ** Data of the policy *)

(** [EditStrategy]: a tagged union on [type], each with its [params]. *)
Record TokenLimitParams : Type := mkTokenLimitParams {
  limit_tokens : Z
}.

Record RemoveToolResultParams : Type := mkRemoveToolResultParams {
  keep_recent_n_tool_results : option Z;
  tool_result_placeholder : option string
}.

Record RemoveToolCallParamsParams : Type := mkRemoveToolCallParamsParams {
  keep_recent_n_tool_calls : option Z
}.

Inductive EditStrategy : Type :=
| token_limit (params : TokenLimitParams)
| remove_tool_result (params : RemoveToolResultParams)
| remove_tool_call_params (params : RemoveToolCallParamsParams).

Record TokenCounts : Type := mkTokenCounts {
  total_tokens : Z
}.

(** An element of [messages]: [{ role: string; toolCalls?: unknown }]. *)
Record Message : Type := mkMessage {
  role : string;
  toolCalls : option JsValue
}.

(** The optional [config] argument; each field is itself optional. *)
Record Config : Type := mkConfig {
  tokenLimitThreshold : option Z;
  tokenLimitTarget : option Z;
  toolResultThreshold : option Z;
  toolCallThreshold : option Z
}.

(** [config?.field]: an absent [config] reads as an absent field. *)
Definition opt_field (config : option Config) (f : Config -> option Z) : option Z :=
  match config with
  | Some c => f c
  | None => None
  end.

(** Reading [msg.toolCalls]: an absent property reads as [undefined]. *)
Definition get_toolCalls (msg : Message) : JsValue :=
  match toolCalls msg with
  | Some v => v
  | None => JsUndefined
  end.

(** ** The console *)

Definition LogEntry : Type := (string * list (string * Z))%type.
Definition Console : Type := list LogEntry.

Definition Eff (A : Type) : Type := Console -> A * Console.

Definition ret {A : Type} (a : A) : Eff A := fun w => (a, w).

Definition bind {A B : Type} (m : Eff A) (k : A -> Eff B) : Eff B :=
  fun w => let (a, w') := m w in k a w'.

Definition console_debug (msg : string) (payload : list (string * Z)) : Eff unit :=
  fun w => (tt, w ++ [(msg, payload)]).

Definition result_of {A : Type} (m : Eff A) (w : Console) : A := fst (m w).
Definition console_after {A : Type} (m : Eff A) (w : Console) : Console := snd (m w).

Notation "x <- m ;; k" := (bind m (fun x => k))
  (at level 61, m at next level, right associativity).
Notation "m ;;> k" := (bind m (fun _ => k))
  (at level 61, right associativity).

(** ** The function *)

(** Body of the [for (const msg of messages)] loop, on the pair
    [(toolCallCount, toolResultCount)]. *)
Definition count_step (st : Z * Z) (msg : Message) : Z * Z :=
  let '(toolCallCount, toolResultCount) := st in
  let toolCallCount :=
    if ToBoolean (get_toolCalls msg) then
      (* Array.isArray(msg.toolCalls) ? msg.toolCalls : [msg.toolCalls] *)
      let toolCalls :=
        match get_toolCalls msg with
        | JsArray elems => elems
        | v => [v]
        end in
      toolCallCount + Z.of_nat (List.length toolCalls)
    else toolCallCount in
  let toolResultCount :=
    if String.eqb (role msg) "tool" then toolResultCount + 1
    else toolResultCount in
  (toolCallCount, toolResultCount).

Definition count_loop (messages : list Message) : Z * Z :=
  fold_left count_step messages (0, 0).

Definition determineEditStrategies
    (tokenCounts : option TokenCounts)
    (messages : list Message)
    (config : option Config) : Eff (list EditStrategy) :=
  let strategies : list EditStrategy := [] in
  let tokenLimitThreshold := nullish (opt_field config tokenLimitThreshold) 80000 in
  let tokenLimitTarget := nullish (opt_field config tokenLimitTarget) 70000 in
  let toolResultThreshold := nullish (opt_field config toolResultThreshold) 5 in
  let toolCallThreshold := nullish (opt_field config toolCallThreshold) 10 in
  match tokenCounts with
  | None => ret strategies
  | Some tokenCounts =>
    if total_tokens tokenCounts =? 0 then ret strategies
    else
      let '(toolCallCount, toolResultCount) := count_loop messages in
      console_debug "[Acontext] Analyzing context for edit strategies"
        [("total_tokens", total_tokens tokenCounts);
         ("tokenLimitThreshold", tokenLimitThreshold);
         ("toolCallCount", toolCallCount);
         ("toolResultCount", toolResultCount)] ;;>
      strategies <-
        (if total_tokens tokenCounts >? tokenLimitThreshold then
           let strategies :=
             strategies ++ [token_limit (mkTokenLimitParams tokenLimitTarget)] in
           console_debug "[Acontext] Auto-applying token_limit strategy"
             [("limit_tokens", tokenLimitTarget)] ;;>
           ret strategies
         else ret strategies) ;;
      strategies <-
        (if (toolResultCount >? toolResultThreshold)
            && Nat.eqb (List.length strategies) 0 then
           let strategies :=
             strategies ++
             [remove_tool_result
                (mkRemoveToolResultParams
                   (Some (Math_max 3 (Math_floor (half toolResultThreshold))))
                   (Some "Done"))] in
           console_debug "[Acontext] Auto-applying remove_tool_result strategy"
             [("keep_recent_n_tool_results",
               Math_max 3 (Math_floor (half toolResultThreshold)))] ;;>
           ret strategies
         else ret strategies) ;;
      strategies <-
        (if (toolCallCount >? toolCallThreshold)
            && Nat.eqb (List.length strategies) 0 then
           let strategies :=
             strategies ++
             [remove_tool_call_params
                (mkRemoveToolCallParamsParams
                   (Some (Math_max 3 (Math_floor (half toolCallThreshold)))))] in
           console_debug "[Acontext] Auto-applying remove_tool_call_params strategy"
             [("keep_recent_n_tool_calls",
               Math_max 3 (Math_floor (half toolCallThreshold)))] ;;>
           ret strategies
         else ret strategies) ;;
      ret strategies
  end.

(** ** Counts, as the specification words them *)

(** What one message adds to the tool-call count. *)
Definition toolCalls_contribution (msg : Message) : Z :=
  match toolCalls msg with
  | None => 0
  | Some v =>
    if ToBoolean v then
      match v with
      | JsArray elems => Z.of_nat (List.length elems)
      | _ => 1
      end
    else 0
  end.

(** Total number of tool-call entries across all messages. *)
Definition toolCallCount_of (messages : list Message) : Z :=
  fold_right Z.add 0 (map toolCalls_contribution messages).

(** Number of messages whose role is ["tool"]. *)
Definition toolResultCount_of (messages : list Message) : Z :=
  Z.of_nat (List.length (filter (fun m => String.eqb (role m) "tool") messages)).

(** The thresholds in force for a given [config]. *)
Definition tokenLimitThreshold_of (config : option Config) : Z :=
  nullish (opt_field config tokenLimitThreshold) 80000.
Definition tokenLimitTarget_of (config : option Config) : Z :=
  nullish (opt_field config tokenLimitTarget) 70000.
Definition toolResultThreshold_of (config : option Config) : Z :=
  nullish (opt_field config toolResultThreshold) 5.
Definition toolCallThreshold_of (config : option Config) : Z :=
  nullish (opt_field config toolCallThreshold) 10.

(** The directives, as the specification names them. *)
Definition TokenLimit (limitTokens : Z) : EditStrategy :=
  token_limit (mkTokenLimitParams limitTokens).
Definition RemoveToolResults (keepRecentCount : Z) (placeholder : string) : EditStrategy :=
  remove_tool_result (mkRemoveToolResultParams (Some keepRecentCount) (Some placeholder)).
Definition RemoveToolCallParams (keepRecentCount : Z) : EditStrategy :=
  remove_tool_call_params (mkRemoveToolCallParamsParams (Some keepRecentCount)).

(** The [keepRecentCount] of a directive, when it carries one. *)
Definition keepRecentCount (d : EditStrategy) : option Z :=
  match d with
  | token_limit _ => None
  | remove_tool_result p => keep_recent_n_tool_results p
  | remove_tool_call_params p => keep_recent_n_tool_calls p
  end.

(** A fully specified configuration: every omitted field of [config]
    replaced by its documented default. *)
Definition with_documented_defaults (config : option Config) : Config :=
  match config with
  | None => mkConfig (Some 80000) (Some 70000) (Some 5) (Some 10)
  | Some c =>
    mkConfig
      (Some (match tokenLimitThreshold c with Some x => x | None => 80000 end))
      (Some (match tokenLimitTarget c with Some x => x | None => 70000 end))
      (Some (match toolResultThreshold c with Some x => x | None => 5 end))
      (Some (match toolCallThreshold c with Some x => x | None => 10 end))
  end.

(** Message builders used in the examples. *)
Definition tool_message : Message := mkMessage "tool" None.
Definition user_message : Message := mkMessage "user" None.
Definition assistant_calls (n : nat) : Message :=
  mkMessage "assistant" (Some (JsArray (repeat (JsString "call") n))).

(** * Properties *)

(** ** Arithmetic of [keepRecentCount] *)

Lemma Math_floor_half (t : Z) : Math_floor (half t) = t / 2.
Proof.
  unfold Math_floor, half, Qdiv, Qmult, Qinv, inject_Z. simpl.
  now rewrite Z.mul_1_r.
Qed.

Lemma keep_recent_eq (t : Z) :
  Math_max 3 (Math_floor (half t)) = Z.max 3 (t / 2).
Proof. unfold Math_max. now rewrite Math_floor_half. Qed.

Lemma keep_recent_ge_3 (t : Z) : 3 <= Math_max 3 (Math_floor (half t)).
Proof. unfold Math_max. lia. Qed.

(** ** The counting loop *)

Lemma count_step_spec (c r : Z) (msg : Message) :
  count_step (c, r) msg =
  (c + toolCalls_contribution msg,
   r + (if String.eqb (role msg) "tool" then 1 else 0)).
Proof.
  unfold count_step, toolCalls_contribution, get_toolCalls.
  destruct (String.eqb (role msg) "tool");
    destruct (toolCalls msg) as [v|]; cbn [ToBoolean];
    try (destruct v as [| |b|n|s|l|l]; cbn [ToBoolean List.length];
         try match goal with |- context [if ?b then _ else _] => destruct b end);
    f_equal; lia.
Qed.

Lemma count_fold_spec (messages : list Message) : forall c r,
  fold_left count_step messages (c, r) =
  (c + toolCallCount_of messages, r + toolResultCount_of messages).
Proof.
  unfold toolCallCount_of, toolResultCount_of.
  induction messages as [|m ms IH]; intros c r;
    cbn [fold_left map fold_right filter List.length].
  - f_equal; lia.
  - rewrite count_step_spec, IH.
    destruct (String.eqb (role m) "tool"); cbn [List.length]; f_equal; lia.
Qed.

Lemma count_loop_spec (messages : list Message) :
  count_loop messages = (toolCallCount_of messages, toolResultCount_of messages).
Proof. unfold count_loop. now rewrite count_fold_spec. Qed.

(** ** The decision algorithm of the specification, and the code against it *)

(** The algorithm as the specification lists it: no signal, then token-limit
    breach, then tool-result volume, then tool-call volume; first match wins. *)
Definition decide (usage : option TokenCounts) (messages : list Message)
    (thresholds : option Config) : list EditStrategy :=
  match usage with
  | None => []
  | Some u =>
    if total_tokens u =? 0 then []
    else if total_tokens u >? tokenLimitThreshold_of thresholds then
      [TokenLimit (tokenLimitTarget_of thresholds)]
    else if toolResultCount_of messages >? toolResultThreshold_of thresholds then
      [RemoveToolResults (Z.max 3 (toolResultThreshold_of thresholds / 2)) "Done"]
    else if toolCallCount_of messages >? toolCallThreshold_of thresholds then
      [RemoveToolCallParams (Z.max 3 (toolCallThreshold_of thresholds / 2))]
    else []
  end.

Ltac case_guards :=
  repeat match goal with
         | |- context [if ?b then _ else _] => destruct b eqn:?
         end.

(** The value returned by the code is the one the algorithm prescribes,
    whatever the console held before the call. *)
Lemma determineEditStrategies_decide tokenCounts messages config (w : Console) :
  result_of (determineEditStrategies tokenCounts messages config) w =
  decide tokenCounts messages config.
Proof.
  unfold result_of, determineEditStrategies, decide.
  destruct tokenCounts as [tc|]; [|reflexivity].
  destruct (total_tokens tc =? 0); [reflexivity|].
  rewrite count_loop_spec.
  fold (tokenLimitThreshold_of config) (tokenLimitTarget_of config)
       (toolResultThreshold_of config) (toolCallThreshold_of config).
  rewrite !keep_recent_eq.
  unfold bind, ret, console_debug.
  destruct (total_tokens tc >? tokenLimitThreshold_of config);
    destruct (toolResultCount_of messages >? toolResultThreshold_of config);
    destruct (toolCallCount_of messages >? toolCallThreshold_of config);
    reflexivity.
Qed.

(** The code reads [messages] only through the two counters of its loop. *)
Lemma determineEditStrategies_counts tokenCounts config ms ms' (w : Console) :
  count_loop ms = count_loop ms' ->
  determineEditStrategies tokenCounts ms config w =
  determineEditStrategies tokenCounts ms' config w.
Proof.
  intros H. unfold determineEditStrategies. now rewrite H.
Qed.

Lemma eqb_0_false (n : Z) : n <> 0 -> (n =? 0) = false.
Proof. intros H. now apply Z.eqb_neq. Qed.

Lemma gtb_true (a b : Z) : b < a -> (a >? b) = true.
Proof. intros H. now apply Z.gtb_lt. Qed.

Lemma gtb_false (a b : Z) : a <= b -> (a >? b) = false.
Proof. intros H. rewrite Z.gtb_ltb. now apply Z.ltb_ge. Qed.

(** ** Counts under reordering *)

Lemma toolCallCount_of_Permutation ms ms' :
  Permutation ms ms' -> toolCallCount_of ms = toolCallCount_of ms'.
Proof.
  unfold toolCallCount_of.
  induction 1 as [|m l l' _ IH|m m' l|l l' l'' _ IH1 _ IH2];
    cbn [map fold_right]; lia.
Qed.

Lemma toolResultCount_of_Permutation ms ms' :
  Permutation ms ms' -> toolResultCount_of ms = toolResultCount_of ms'.
Proof.
  unfold toolResultCount_of.
  induction 1 as [|m l l' _ IH|m m' l|l l' l'' _ IH1 _ IH2];
    cbn [filter].
  - reflexivity.
  - destruct (String.eqb (role m) "tool"); cbn [List.length]; lia.
  - destruct (String.eqb (role m) "tool"), (String.eqb (role m') "tool");
      reflexivity.
  - lia.
Qed.

Lemma count_loop_Permutation ms ms' :
  Permutation ms ms' -> count_loop ms = count_loop ms'.
Proof.
  intros H. rewrite !count_loop_spec.
  now rewrite (toolCallCount_of_Permutation _ _ H),
              (toolResultCount_of_Permutation _ _ H).
Qed.

(** ** Example inputs *)

Definition six_tool_results : list Message :=
  [tool_message; user_message; tool_message; tool_message;
   assistant_calls 2; tool_message; tool_message; tool_message].

Definition twelve_tool_calls : list Message :=
  [user_message; assistant_calls 7; tool_message;
   assistant_calls 5; tool_message].

Definition negative_threshold : option Config :=
  Some (mkConfig (Some (-1)) None None None).

Definition target_above_threshold : option Config :=
  Some (mkConfig (Some 100) (Some 500) None None).

Definition small_result_threshold : option Config :=
  Some (mkConfig None None (Some 2) None).

(** ** The branches of the decision *)

(** C1, as amended: for every configuration (also one whose target is not
    below its threshold) and all messages, when usage is present, its
    [total_tokens] is not 0 and exceeds [tokenLimitThreshold], the result is
    exactly the single directive [TokenLimit] with [limitTokens] the
    configured [tokenLimitTarget], whatever the tool counts are. *)
Theorem token_limit_priority tc messages config (w : Console) :
  total_tokens tc <> 0 ->
  tokenLimitThreshold_of config < total_tokens tc ->
  result_of (determineEditStrategies (Some tc) messages config) w =
  [TokenLimit (tokenLimitTarget_of config)].
Proof.
  intros Hnz Hgt. rewrite determineEditStrategies_decide. unfold decide.
  now rewrite (eqb_0_false _ Hnz), (gtb_true _ _ Hgt).
Qed.

Lemma token_limit_priority_witness :
  total_tokens (mkTokenCounts 90000) <> 0 /\
  tokenLimitThreshold_of target_above_threshold < total_tokens (mkTokenCounts 90000) /\
  result_of (determineEditStrategies (Some (mkTokenCounts 90000))
               six_tool_results target_above_threshold) [] =
  [TokenLimit 500].
Proof.
  split; [cbn; lia|]. split; [cbn; lia|].
  apply (token_limit_priority (mkTokenCounts 90000) six_tool_results
           target_above_threshold []); cbn; lia.
Defined.

(** C1 as stated fails: with [total_tokens = 0] and a negative
    [tokenLimitThreshold], usage is present and exceeds the threshold, yet
    the no-signal guard returns the empty sequence. *)
Lemma token_limit_priority_counterexample :
  tokenLimitThreshold_of negative_threshold < total_tokens (mkTokenCounts 0) /\
  result_of (determineEditStrategies (Some (mkTokenCounts 0)) [] negative_threshold) [] = [] /\
  result_of (determineEditStrategies (Some (mkTokenCounts 0)) [] negative_threshold) [] <>
  [TokenLimit (tokenLimitTarget_of negative_threshold)].
Proof.
  split; [cbn; lia|]. split; [reflexivity|]. cbv. discriminate.
Qed.

(** C2: for every usage, message sequence and configuration, the returned
    sequence holds at most one directive. *)
Theorem at_most_one_directive tokenCounts messages config (w : Console) :
  (List.length (result_of (determineEditStrategies tokenCounts messages config) w) <= 1)%nat.
Proof.
  rewrite determineEditStrategies_decide. unfold decide.
  destruct tokenCounts as [tc|]; [|cbn; lia].
  case_guards; cbn; lia.
Qed.

(** C3: for all messages and configurations, the result is empty when usage
    is absent and when usage reports 0 tokens; the function returns at once,
    leaving the console as it was. *)
Theorem no_signal_no_op messages config (w : Console) :
  determineEditStrategies None messages config w = ([], w) /\
  determineEditStrategies (Some (mkTokenCounts 0)) messages config w = ([], w).
Proof. split; reflexivity. Qed.

(** C4, as amended: when usage is present with [total_tokens] not 0 and not
    above [tokenLimitThreshold], and the number of messages of role [tool]
    exceeds [toolResultThreshold], the result is exactly
    [RemoveToolResults] keeping [max 3 (floor (toolResultThreshold / 2))]
    with placeholder ["Done"]. *)
Theorem tool_result_trigger tc messages config (w : Console) :
  total_tokens tc <> 0 ->
  total_tokens tc <= tokenLimitThreshold_of config ->
  toolResultThreshold_of config < toolResultCount_of messages ->
  result_of (determineEditStrategies (Some tc) messages config) w =
  [RemoveToolResults (Z.max 3 (toolResultThreshold_of config / 2)) "Done"].
Proof.
  intros Hnz Hle Hgt. rewrite determineEditStrategies_decide. unfold decide.
  now rewrite (eqb_0_false _ Hnz), (gtb_false _ _ Hle), (gtb_true _ _ Hgt).
Qed.

(** 1000 tokens, default thresholds, 6 messages of role [tool]. *)
Lemma tool_result_trigger_witness :
  toolResultCount_of six_tool_results = 6 /\
  result_of (determineEditStrategies (Some (mkTokenCounts 1000))
               six_tool_results None) [] =
  [RemoveToolResults 3 "Done"].
Proof.
  split; [reflexivity|].
  apply (tool_result_trigger (mkTokenCounts 1000) six_tool_results None []).
  - cbn; lia.
  - cbn; lia.
  - reflexivity.
Defined.

(** C4 as stated fails at [total_tokens = 0]: the threshold is not exceeded,
    6 messages have role [tool], and the result is empty. *)
Lemma tool_result_trigger_counterexample :
  total_tokens (mkTokenCounts 0) <= tokenLimitThreshold_of None /\
  toolResultThreshold_of None < toolResultCount_of six_tool_results /\
  result_of (determineEditStrategies (Some (mkTokenCounts 0)) six_tool_results None) [] = [] /\
  result_of (determineEditStrategies (Some (mkTokenCounts 0)) six_tool_results None) [] <>
  [RemoveToolResults (Z.max 3 (toolResultThreshold_of None / 2)) "Done"].
Proof.
  split; [cbn; lia|]. split; [reflexivity|]. split; [reflexivity|].
  cbv. discriminate.
Qed.

(** C5, as amended: when usage is present with [total_tokens] not 0 and not
    above [tokenLimitThreshold], the number of messages of role [tool] does
    not exceed [toolResultThreshold], and the number of tool-call entries
    across all messages exceeds [toolCallThreshold], the result is exactly
    [RemoveToolCallParams] keeping [max 3 (floor (toolCallThreshold / 2))]. *)
Theorem tool_call_trigger tc messages config (w : Console) :
  total_tokens tc <> 0 ->
  total_tokens tc <= tokenLimitThreshold_of config ->
  toolResultCount_of messages <= toolResultThreshold_of config ->
  toolCallThreshold_of config < toolCallCount_of messages ->
  result_of (determineEditStrategies (Some tc) messages config) w =
  [RemoveToolCallParams (Z.max 3 (toolCallThreshold_of config / 2))].
Proof.
  intros Hnz Hle Hres Hgt. rewrite determineEditStrategies_decide. unfold decide.
  now rewrite (eqb_0_false _ Hnz), (gtb_false _ _ Hle), (gtb_false _ _ Hres),
              (gtb_true _ _ Hgt).
Qed.

(** 1000 tokens, default thresholds, 2 messages of role [tool], 12 tool calls. *)
Lemma tool_call_trigger_witness :
  toolResultCount_of twelve_tool_calls = 2 /\
  toolCallCount_of twelve_tool_calls = 12 /\
  result_of (determineEditStrategies (Some (mkTokenCounts 1000))
               twelve_tool_calls None) [] =
  [RemoveToolCallParams 5].
Proof.
  split; [reflexivity|]. split; [reflexivity|].
  apply (tool_call_trigger (mkTokenCounts 1000) twelve_tool_calls None []).
  - cbn; lia.
  - cbn; lia.
  - vm_compute; discriminate.
  - reflexivity.
Defined.

(** C5 as stated fails at [total_tokens = 0]: 2 messages of role [tool],
    12 tool calls, default thresholds, and the result is empty. *)
Lemma tool_call_trigger_counterexample :
  total_tokens (mkTokenCounts 0) <= tokenLimitThreshold_of None /\
  toolResultCount_of twelve_tool_calls <= toolResultThreshold_of None /\
  toolCallThreshold_of None < toolCallCount_of twelve_tool_calls /\
  result_of (determineEditStrategies (Some (mkTokenCounts 0)) twelve_tool_calls None) [] = [] /\
  result_of (determineEditStrategies (Some (mkTokenCounts 0)) twelve_tool_calls None) [] <>
  [RemoveToolCallParams (Z.max 3 (toolCallThreshold_of None / 2))].
Proof.
  split; [cbn; lia|]. split; [vm_compute; discriminate|].
  split; [reflexivity|]. split; [reflexivity|]. cbv. discriminate.
Qed.

Lemma keep_recent_floor_spec (t : Z) :
  exists k q, Some (Z.max 3 (t / 2)) = Some k /\
    2 * q <= t < 2 * q + 2 /\ q = t / 2 /\ k = Z.max 3 q /\ 3 <= k.
Proof.
  pose proof (Z.mul_div_le t 2). pose proof (Z.mul_succ_div_gt t 2).
  exists (Z.max 3 (t / 2)), (t / 2). repeat split; lia.
Qed.

(** ** Defaults *)

(** The four thresholds, every one of them given. *)
Record Thresholds : Type := mkThresholds {
  given_tokenLimitThreshold : Z;
  given_tokenLimitTarget : Z;
  given_toolResultThreshold : Z;
  given_toolCallThreshold : Z
}.

Definition documented_defaults : Thresholds := mkThresholds 80000 70000 5 10.

(** A field the caller supplies is taken as it is, whatever its value (0
    included); an omitted field leaves the default. *)
Definition supplied_or (field : option Z) (default : Z) : Z :=
  match field with
  | Some value => value
  | None => default
  end.

(** The thresholds a caller's [config] stands for. *)
Definition effective_thresholds (config : option Config) : Thresholds :=
  match config with
  | None => documented_defaults
  | Some c =>
    mkThresholds
      (supplied_or (tokenLimitThreshold c)
         (given_tokenLimitThreshold documented_defaults))
      (supplied_or (tokenLimitTarget c)
         (given_tokenLimitTarget documented_defaults))
      (supplied_or (toolResultThreshold c)
         (given_toolResultThreshold documented_defaults))
      (supplied_or (toolCallThreshold c)
         (given_toolCallThreshold documented_defaults))
  end.

(** The decision algorithm of the specification on four given thresholds. *)
Definition decide_with (thresholds : Thresholds)
    (usage : option TokenCounts) (messages : list Message) : list EditStrategy :=
  match usage with
  | None => []
  | Some u =>
    if total_tokens u =? 0 then []
    else if total_tokens u >? given_tokenLimitThreshold thresholds then
      [TokenLimit (given_tokenLimitTarget thresholds)]
    else if toolResultCount_of messages >? given_toolResultThreshold thresholds then
      [RemoveToolResults (Z.max 3 (given_toolResultThreshold thresholds / 2)) "Done"]
    else if toolCallCount_of messages >? given_toolCallThreshold thresholds then
      [RemoveToolCallParams (Z.max 3 (given_toolCallThreshold thresholds / 2))]
    else []
  end.

(** C6: for every configuration, with any subset of its four fields
    omitted or no configuration at all, the function decides as the
    algorithm does on the thresholds the configuration stands for: each
    supplied field at the value supplied, each omitted field at its
    documented default (80000, 70000, 5, 10).  So it also behaves, result and
    log alike, as on the configuration completed with those defaults. *)
Theorem omitted_fields_default tokenCounts messages config (w : Console) :
  result_of (determineEditStrategies tokenCounts messages config) w =
  decide_with (effective_thresholds config) tokenCounts messages /\
  determineEditStrategies tokenCounts messages config w =
  determineEditStrategies tokenCounts messages
    (Some (with_documented_defaults config)) w.
Proof.
  split.
  - rewrite determineEditStrategies_decide. unfold decide, decide_with.
    unfold tokenLimitThreshold_of, tokenLimitTarget_of, toolResultThreshold_of,
      toolCallThreshold_of, effective_thresholds.
    destruct config as [[[a|] [b|] [c|] [d|]]|]; reflexivity.
  - unfold determineEditStrategies.
    destruct config as [[[a|] [b|] [c|] [d|]]|]; reflexivity.
Qed.

(** A threshold supplied as 0 is used as 0, not replaced by the default;
    the other three fields keep their defaults. *)
Example zero_threshold_is_used :
  result_of (determineEditStrategies (Some (mkTokenCounts 5)) []
               (Some (mkConfig (Some 0) None None None))) [] =
  [TokenLimit 70000] /\
  result_of (determineEditStrategies (Some (mkTokenCounts 5)) []
               (Some (mkConfig None None None None))) [] = [].
Proof. split; reflexivity. Qed.

(** Overriding one field only: [toolCallThreshold = 2] with the other
    defaults. *)
Example one_field_overridden :
  result_of (determineEditStrategies (Some (mkTokenCounts 1000))
               [assistant_calls 3]
               (Some (mkConfig None None None (Some 2)))) [] =
  [RemoveToolCallParams 3] /\
  result_of (determineEditStrategies (Some (mkTokenCounts 1000))
               [assistant_calls 3] None) [] = [].
Proof. split; reflexivity. Qed.

(** ** The floor of [keepRecentCount] *)

(** C7: the [keepRecentCount] of a returned [RemoveToolResults] (of a
    returned [RemoveToolCallParams]) is [max 3 q], where [q] is the floor of
    half of [toolResultThreshold] (of [toolCallThreshold]): the integer with
    [2 q <= threshold < 2 q + 2]; it is at least 3. *)
Theorem keepRecentCount_floor tokenCounts messages config (w : Console) d :
  In d (result_of (determineEditStrategies tokenCounts messages config) w) ->
  match d with
  | token_limit _ => True
  | remove_tool_result p =>
    exists k q, keep_recent_n_tool_results p = Some k /\
      2 * q <= toolResultThreshold_of config < 2 * q + 2 /\
      q = toolResultThreshold_of config / 2 /\
      k = Z.max 3 q /\ 3 <= k
  | remove_tool_call_params p =>
    exists k q, keep_recent_n_tool_calls p = Some k /\
      2 * q <= toolCallThreshold_of config < 2 * q + 2 /\
      q = toolCallThreshold_of config / 2 /\
      k = Z.max 3 q /\ 3 <= k
  end.
Proof.
  rewrite determineEditStrategies_decide. unfold decide.
  destruct tokenCounts as [tc|]; [|cbn [In]; intros H; destruct H].
  case_guards; cbn [In]; intros H;
    (destruct H as [<-|[]] || destruct H);
    unfold TokenLimit, RemoveToolResults, RemoveToolCallParams;
    cbn [keep_recent_n_tool_results keep_recent_n_tool_calls];
    try exact I; apply keep_recent_floor_spec.
Qed.

(** [toolResultThreshold = 2], three messages of role [tool]. *)
Lemma keepRecentCount_floor_witness :
  In (RemoveToolResults 3 "Done")
     (result_of (determineEditStrategies (Some (mkTokenCounts 1000))
                   [tool_message; tool_message; tool_message]
                   small_result_threshold) []) /\
  exists k q, Some 3 = Some k /\
    2 * q <= 2 < 2 * q + 2 /\ q = 2 / 2 /\ k = Z.max 3 q /\ 3 <= k.
Proof.
  split; [left; reflexivity|].
  apply (keepRecentCount_floor (Some (mkTokenCounts 1000))
           [tool_message; tool_message; tool_message]
           small_result_threshold [] (RemoveToolResults 3 "Done")).
  left; reflexivity.
Defined.

(** ** Order of the messages *)

(** C8: on a permutation of the messages the function returns the same
    directives (and logs the same lines): both counts are unchanged, and
    the messages are read through the two counts only. *)
Theorem message_order_irrelevant tokenCounts config ms ms' (w : Console) :
  Permutation ms ms' ->
  toolResultCount_of ms = toolResultCount_of ms' /\
  toolCallCount_of ms = toolCallCount_of ms' /\
  determineEditStrategies tokenCounts ms config w =
  determineEditStrategies tokenCounts ms' config w.
Proof.
  intros H. repeat split.
  - now apply toolResultCount_of_Permutation.
  - now apply toolCallCount_of_Permutation.
  - apply determineEditStrategies_counts. now apply count_loop_Permutation.
Qed.

Lemma message_order_irrelevant_witness :
  Permutation twelve_tool_calls (rev twelve_tool_calls) /\
  toolResultCount_of twelve_tool_calls = toolResultCount_of (rev twelve_tool_calls) /\
  toolCallCount_of twelve_tool_calls = toolCallCount_of (rev twelve_tool_calls) /\
  determineEditStrategies (Some (mkTokenCounts 1000)) twelve_tool_calls None [] =
  determineEditStrategies (Some (mkTokenCounts 1000)) (rev twelve_tool_calls) None [].
Proof.
  split; [apply Permutation_rev|].
  apply (message_order_irrelevant (Some (mkTokenCounts 1000)) None
           twelve_tool_calls (rev twelve_tool_calls) []).
  apply Permutation_rev.
Defined.

(** ** Statelessness *)

(** The array [strategies] is an object: each call makes one with [[]],
    pushes onto it, tests its [length] and returns a reference to it.  Here
    the arrays live in a heap, addressed by their position, next to the
    console; a caller holding a returned reference may push onto it as it
    likes. *)
Definition Ref : Type := nat.
Definition Heap : Type := list (list EditStrategy).

Record World : Type := mkWorld {
  world_heap : Heap;
  world_console : Console
}.

Fixpoint replace_at {A : Type} (n : nat) (x : A) (l : list A) : list A :=
  match l, n with
  | [], _ => []
  | _ :: rest, O => x :: rest
  | y :: rest, S n' => y :: replace_at n' x rest
  end.

(** [[]]: a new, empty array. *)
Definition new_array (world : World) : Ref * World :=
  (List.length (world_heap world),
   mkWorld (world_heap world ++ [[]]) (world_console world)).

(** The elements of the array behind a reference. *)
Definition array_read (world : World) (r : Ref) : list EditStrategy :=
  nth r (world_heap world) [].

(** [r.push(x)] *)
Definition array_push (r : Ref) (x : EditStrategy) (world : World) : World :=
  mkWorld (replace_at r (array_read world r ++ [x]) (world_heap world))
          (world_console world).

Definition world_debug (msg : string) (payload : list (string * Z))
    (world : World) : World :=
  mkWorld (world_heap world) (world_console world ++ [(msg, payload)]).

(** [determineEditStrategies] with its array in the heap: the value
    returned is the reference [strategies]. *)
Definition determineEditStrategies_world
    (tokenCounts : option TokenCounts)
    (messages : list Message)
    (config : option Config) (world : World) : Ref * World :=
  let '(strategies, world) := new_array world in
  let tokenLimitThreshold := nullish (opt_field config tokenLimitThreshold) 80000 in
  let tokenLimitTarget := nullish (opt_field config tokenLimitTarget) 70000 in
  let toolResultThreshold := nullish (opt_field config toolResultThreshold) 5 in
  let toolCallThreshold := nullish (opt_field config toolCallThreshold) 10 in
  match tokenCounts with
  | None => (strategies, world)
  | Some tokenCounts =>
    if total_tokens tokenCounts =? 0 then (strategies, world)
    else
      let '(toolCallCount, toolResultCount) := count_loop messages in
      let world :=
        world_debug "[Acontext] Analyzing context for edit strategies"
          [("total_tokens", total_tokens tokenCounts);
           ("tokenLimitThreshold", tokenLimitThreshold);
           ("toolCallCount", toolCallCount);
           ("toolResultCount", toolResultCount)] world in
      let world :=
        if total_tokens tokenCounts >? tokenLimitThreshold then
          world_debug "[Acontext] Auto-applying token_limit strategy"
            [("limit_tokens", tokenLimitTarget)]
            (array_push strategies
               (token_limit (mkTokenLimitParams tokenLimitTarget)) world)
        else world in
      let world :=
        if (toolResultCount >? toolResultThreshold)
           && Nat.eqb (List.length (array_read world strategies)) 0 then
          world_debug "[Acontext] Auto-applying remove_tool_result strategy"
            [("keep_recent_n_tool_results",
              Math_max 3 (Math_floor (half toolResultThreshold)))]
            (array_push strategies
               (remove_tool_result
                  (mkRemoveToolResultParams
                     (Some (Math_max 3 (Math_floor (half toolResultThreshold))))
                     (Some "Done"))) world)
        else world in
      let world :=
        if (toolCallCount >? toolCallThreshold)
           && Nat.eqb (List.length (array_read world strategies)) 0 then
          world_debug "[Acontext] Auto-applying remove_tool_call_params strategy"
            [("keep_recent_n_tool_calls",
              Math_max 3 (Math_floor (half toolCallThreshold)))]
            (array_push strategies
               (remove_tool_call_params
                  (mkRemoveToolCallParamsParams
                     (Some (Math_max 3 (Math_floor (half toolCallThreshold))))))
               world)
        else world in
      (strategies, world)
  end.

(** A caller keeps the reference it was given and pushes onto it. *)
Definition caller_pushes (r : Ref) (junk : list EditStrategy) (world : World)
    : World :=
  fold_left (fun w x => array_push r x w) junk world.

Lemma nth_replace_at_same {A : Type} (l : list A) : forall n x d,
  (n < List.length l)%nat -> nth n (replace_at n x l) d = x.
Proof.
  induction l as [|y l IH]; intros [|n] x d H; cbn in *; try lia; auto.
  apply IH. lia.
Qed.

Lemma nth_replace_at_other {A : Type} (l : list A) : forall n m x d,
  n <> m -> nth m (replace_at n x l) d = nth m l d.
Proof.
  induction l as [|y l IH]; intros [|n] [|m] x d H; cbn; auto; try congruence.
Qed.

Lemma length_replace_at {A : Type} (l : list A) : forall n x,
  List.length (replace_at n x l) = List.length l.
Proof. induction l as [|y l IH]; intros [|n] x; cbn; auto. Qed.

Lemma array_read_new world :
  array_read (snd (new_array world)) (fst (new_array world)) = [].
Proof.
  unfold array_read, new_array. cbn [fst snd world_heap].
  rewrite app_nth2 by lia. now rewrite Nat.sub_diag.
Qed.

Lemma array_read_new_other world r :
  (r < List.length (world_heap world))%nat ->
  array_read (snd (new_array world)) r = array_read world r.
Proof.
  intros H. unfold array_read, new_array. cbn [snd world_heap].
  now rewrite app_nth1.
Qed.

Lemma array_read_push world r x :
  (r < List.length (world_heap world))%nat ->
  array_read (array_push r x world) r = array_read world r ++ [x].
Proof.
  intros H. unfold array_push. unfold array_read at 1. cbn [world_heap].
  now apply nth_replace_at_same.
Qed.

Lemma array_read_push_other world r r' x :
  r <> r' -> array_read (array_push r x world) r' = array_read world r'.
Proof.
  intros H. unfold array_push. unfold array_read at 1. cbn [world_heap].
  now apply nth_replace_at_other.
Qed.

Lemma length_heap_push world r x :
  List.length (world_heap (array_push r x world)) =
  List.length (world_heap world).
Proof. apply length_replace_at. Qed.

Lemma length_heap_caller_pushes r junk : forall world,
  List.length (world_heap (caller_pushes r junk world)) =
  List.length (world_heap world).
Proof.
  unfold caller_pushes. induction junk as [|x junk IH]; intros world;
    [reflexivity|].
  cbn [fold_left]. rewrite IH. apply length_heap_push.
Qed.

(** [w] differs from [base] by one more array, at [n], holding
    [contents], and by a console that reads [console]. *)
Definition one_array_more (base : World) (n : Ref) (w : World)
    (contents : list EditStrategy) (console : Console) : Prop :=
  array_read w n = contents /\
  List.length (world_heap w) = S n /\
  world_console w = console /\
  (forall r, (r < n)%nat -> array_read w r = array_read base r).

Lemma one_array_more_new base :
  one_array_more base (fst (new_array base)) (snd (new_array base)) []
    (world_console base).
Proof.
  repeat split.
  - apply array_read_new.
  - cbn. rewrite length_app. cbn. lia.
  - intros r Hr. now apply array_read_new_other.
Qed.

Lemma one_array_more_debug base n w contents console msg payload :
  one_array_more base n w contents console ->
  one_array_more base n (world_debug msg payload w) contents
    (console ++ [(msg, payload)]).
Proof.
  intros (H1 & H2 & H3 & H4). repeat split; auto.
  cbn. now rewrite H3.
Qed.

Lemma one_array_more_push base n w contents console x :
  one_array_more base n w contents console ->
  one_array_more base n (array_push n x w) (contents ++ [x]) console.
Proof.
  intros (H1 & H2 & H3 & H4). repeat split.
  - rewrite array_read_push by lia. now rewrite H1.
  - now rewrite length_heap_push.
  - exact H3.
  - intros r Hr. rewrite array_read_push_other by lia. now apply H4.
Qed.

(** What a call does to the world: it allocates one array, fills it with
    the directives of the value model, appends the lines of the value model
    to the console and leaves every array that existed before as it was. *)
Lemma determineEditStrategies_world_spec tokenCounts messages config world :
  let call := determineEditStrategies_world tokenCounts messages config world in
  fst call = List.length (world_heap world) /\
  one_array_more world (fst call) (snd call)
    (result_of (determineEditStrategies tokenCounts messages config)
       (world_console world))
    (console_after (determineEditStrategies tokenCounts messages config)
       (world_console world)).
Proof.
  unfold determineEditStrategies_world, determineEditStrategies,
    result_of, console_after.
  pose proof (one_array_more_new world) as H0.
  assert (Hr : fst (new_array world) = List.length (world_heap world))
    by reflexivity.
  destruct (new_array world) as [strategies world0]. cbn [fst snd] in *.
  destruct tokenCounts as [tc|]; [|cbn [fst snd]; auto].
  destruct (total_tokens tc =? 0); [cbn [fst snd]; auto|].
  destruct (count_loop messages) as [c r0].
  unfold bind, ret, console_debug.
  match goal with |- context [world_debug ?m ?p world0] =>
    pose proof (one_array_more_debug _ _ _ _ _ m p H0) as H1;
    set (world1 := world_debug m p world0) in *
  end.
  destruct (total_tokens tc >? _).
  - match goal with |- context [world_debug ?m ?p (array_push strategies ?x world1)] =>
      pose proof (one_array_more_debug _ _ _ _ _ m p
                    (one_array_more_push _ _ _ _ _ x H1)) as H2;
      set (world2 := world_debug m p (array_push strategies x world1)) in *
    end.
    repeat (rewrite (proj1 H2); cbn [app List.length Nat.eqb];
            rewrite andb_false_r).
    cbn [fst snd]. split; [exact Hr|exact H2].
  - rewrite (proj1 H1). cbn [List.length Nat.eqb]. rewrite andb_true_r.
    destruct (r0 >? _).
    + match goal with |- context [world_debug ?m ?p (array_push strategies ?x world1)] =>
        pose proof (one_array_more_debug _ _ _ _ _ m p
                      (one_array_more_push _ _ _ _ _ x H1)) as H2;
        set (world2 := world_debug m p (array_push strategies x world1)) in *
      end.
      repeat (rewrite (proj1 H2); cbn [app List.length Nat.eqb];
              rewrite andb_false_r).
      cbn [fst snd]. split; [exact Hr|exact H2].
    + rewrite (proj1 H1). cbn [List.length Nat.eqb]. rewrite andb_true_r.
      destruct (c >? _).
      * match goal with |- context [world_debug ?m ?p (array_push strategies ?x world1)] =>
          pose proof (one_array_more_debug _ _ _ _ _ m p
                        (one_array_more_push _ _ _ _ _ x H1)) as H2
        end.
        cbn [fst snd]. split; [exact Hr|exact H2].
      * cbn [fst snd]. split; [exact Hr|exact H1].
Qed.

(** C9: two calls on equal arguments return arrays with equal contents,
    from whatever two states of the world they are made: whatever arrays
    exist, whatever callers have pushed onto arrays returned earlier,
    whatever the console holds.  Each call returns a reference that did not
    exist before, changes no array that did, and only appends to the
    console, so no call leaves anything behind that a later call reads. *)
Theorem deterministic_stateless tokenCounts messages config (world1 world2 : World) :
  let call1 := determineEditStrategies_world tokenCounts messages config world1 in
  let call2 := determineEditStrategies_world tokenCounts messages config world2 in
  array_read (snd call1) (fst call1) = array_read (snd call2) (fst call2) /\
  (forall junk,
     let later :=
       determineEditStrategies_world tokenCounts messages config
         (caller_pushes (fst call1) junk (snd call1)) in
     array_read (snd later) (fst later) = array_read (snd call1) (fst call1) /\
     fst later <> fst call1) /\
  (List.length (world_heap world1) <= fst call1)%nat /\
  (forall r, (r < List.length (world_heap world1))%nat ->
             array_read (snd call1) r = array_read world1 r) /\
  exists lines, world_console (snd call1) = world_console world1 ++ lines.
Proof.
  intros call1 call2.
  destruct (determineEditStrategies_world_spec tokenCounts messages config world1)
    as (Hr1 & Hv1 & Hl1 & Hc1 & Ho1).
  destruct (determineEditStrategies_world_spec tokenCounts messages config world2)
    as (Hr2 & Hv2 & _).
  fold call1 in Hr1, Hl1, Hv1, Hc1, Ho1. fold call2 in Hr2, Hv2.
  split; [rewrite Hv1, Hv2; now rewrite !determineEditStrategies_decide|].
  split.
  { intros junk later.
    destruct (determineEditStrategies_world_spec tokenCounts messages config
                (caller_pushes (fst call1) junk (snd call1)))
      as (Hr3 & Hv3 & _).
    fold later in Hr3, Hv3. split.
    - rewrite Hv3, Hv1. now rewrite !determineEditStrategies_decide.
    - rewrite Hr3.
      rewrite length_heap_caller_pushes, Hl1. lia. }
  split; [lia|]. split; [intros r Hlt; apply Ho1; lia|].
  rewrite Hc1. unfold console_after, determineEditStrategies.
  destruct tokenCounts as [tc|]; [|exists []; cbn; now rewrite app_nil_r].
  destruct (total_tokens tc =? 0); [exists []; cbn; now rewrite app_nil_r|].
  destruct (count_loop messages) as [c r].
  unfold bind, ret, console_debug.
  case_guards; cbn [snd]; rewrite <- ?app_assoc; eexists; reflexivity.
Qed.

(** A caller fills the array it was given with three more entries; the next
    call on the same arguments returns a new array with the one directive. *)
Example second_call_unaffected :
  let world0 := mkWorld [[TokenLimit 1]; []] [] in
  let call1 :=
    determineEditStrategies_world (Some (mkTokenCounts 1000))
      six_tool_results None world0 in
  let world1 :=
    caller_pushes (fst call1)
      [TokenLimit 1; TokenLimit 2; TokenLimit 3] (snd call1) in
  let call2 :=
    determineEditStrategies_world (Some (mkTokenCounts 1000))
      six_tool_results None world1 in
  array_read world1 (fst call1) =
    [RemoveToolResults 3 "Done"; TokenLimit 1; TokenLimit 2; TokenLimit 3] /\
  array_read (snd call2) (fst call2) = [RemoveToolResults 3 "Done"] /\
  fst call1 = 2%nat /\ fst call2 = 3%nat.
Proof. vm_compute. repeat split. Qed.

(** ** Counting tool calls *)

(** The three shapes of [msg.toolCalls] and what each adds to the count. *)
Inductive toolCalls_adds : option JsValue -> Z -> Prop :=
| adds_absent : toolCalls_adds None 0
| adds_falsy v : ToBoolean v = false -> toolCalls_adds (Some v) 0
| adds_array elems :
    toolCalls_adds (Some (JsArray elems)) (Z.of_nat (List.length elems))
| adds_single v :
    ToBoolean v = true -> Array_isArray v = false -> toolCalls_adds (Some v) 1.

(** Every message falls under one of the shapes. *)
Lemma toolCalls_adds_total (tc : option JsValue) : exists n, toolCalls_adds tc n.
Proof.
  destruct tc as [v|]; [|eexists; constructor].
  destruct (ToBoolean v) eqn:Ht; [|eexists; now apply adds_falsy].
  destruct (Array_isArray v) eqn:Ha; [|eexists; now apply adds_single].
  destruct v; try discriminate. eexists; apply adds_array.
Qed.

(** C10: in the loop, a message whose [toolCalls] is truthy and not an array
    adds 1 to [toolCallCount]; one whose [toolCalls] is an array adds the
    length of the array (0 for the empty array); one whose [toolCalls] is
    absent or falsy adds 0. *)
Theorem toolCalls_counting (c r : Z) msg n :
  toolCalls_adds (toolCalls msg) n ->
  fst (count_step (c, r) msg) = c + n /\
  fst (count_loop [msg]) = n.
Proof.
  intros H. unfold count_loop. cbn [fold_left].
  rewrite !count_step_spec. cbn [fst].
  assert (E : toolCalls_contribution msg = n).
  { unfold toolCalls_contribution.
    inversion H as [Hm|v Hv Hm|elems Hm|v Hv Ha Hm]; subst; try reflexivity.
    - now rewrite Hv.
    - rewrite Hv. destruct v; try reflexivity; discriminate. }
  rewrite E. split; lia.
Qed.

Lemma toolCalls_counting_witness :
  toolCalls_adds (toolCalls (mkMessage "assistant" (Some (JsObject [])))) 1 /\
  fst (count_step (4, 2) (mkMessage "assistant" (Some (JsObject [])))) = 4 + 1 /\
  fst (count_loop [mkMessage "assistant" (Some (JsObject []))]) = 1.
Proof.
  split; [now apply adds_single|].
  apply (toolCalls_counting 4 2 (mkMessage "assistant" (Some (JsObject []))) 1).
  now apply adds_single.
Defined.

Example toolCalls_empty_array_adds_nothing :
  count_step (4, 2) (mkMessage "assistant" (Some (JsArray []))) = (4, 2).
Proof. reflexivity. Qed.

Example quiescent :
  result_of (determineEditStrategies (Some (mkTokenCounts 500))
               [tool_message; assistant_calls 2] None) [] = [].
Proof. reflexivity. Qed.

(** * Further properties of [determineEditStrategies] *)

(** ** Which inputs give which directive *)

(** The result is empty exactly when there is no signal (no usage, or 0
    tokens) or none of the three thresholds is exceeded. *)
Theorem no_directive_iff tokenCounts messages config (w : Console) :
  result_of (determineEditStrategies tokenCounts messages config) w = [] <->
  tokenCounts = None \/
  (exists tc, tokenCounts = Some tc /\
     (total_tokens tc = 0 \/
      (total_tokens tc <= tokenLimitThreshold_of config /\
       toolResultCount_of messages <= toolResultThreshold_of config /\
       toolCallCount_of messages <= toolCallThreshold_of config))).
Proof.
  rewrite determineEditStrategies_decide. unfold decide.
  destruct tokenCounts as [tc|]; [|split; auto].
  destruct (total_tokens tc =? 0) eqn:E0;
    [apply Z.eqb_eq in E0|apply Z.eqb_neq in E0].
  { split; [|reflexivity]. intros _. right. exists tc. auto. }
  destruct (total_tokens tc >? tokenLimitThreshold_of config) eqn:E1;
    [apply Z.gtb_lt in E1|rewrite Z.gtb_ltb in E1; apply Z.ltb_ge in E1].
  { split; [discriminate|].
    intros [H|(tc' & [= <-] & [H|H])]; [discriminate|lia..]. }
  destruct (toolResultCount_of messages >? toolResultThreshold_of config) eqn:E2;
    [apply Z.gtb_lt in E2|rewrite Z.gtb_ltb in E2; apply Z.ltb_ge in E2].
  { split; [discriminate|].
    intros [H|(tc' & [= <-] & [H|H])]; [discriminate|lia..]. }
  destruct (toolCallCount_of messages >? toolCallThreshold_of config) eqn:E3;
    [apply Z.gtb_lt in E3|rewrite Z.gtb_ltb in E3; apply Z.ltb_ge in E3].
  { split; [discriminate|].
    intros [H|(tc' & [= <-] & [H|H])]; [discriminate|lia..]. }
  split; [|reflexivity]. intros _. right. exists tc. auto.
Qed.

Lemma no_directive_iff_witness :
  result_of (determineEditStrategies (Some (mkTokenCounts 500))
               [tool_message; assistant_calls 2] None) [] = [].
Proof.
  apply (proj2 (no_directive_iff (Some (mkTokenCounts 500))
                  [tool_message; assistant_calls 2] None [])).
  right. exists (mkTokenCounts 500). split; [reflexivity|]. right.
  repeat split; vm_compute; discriminate.
Defined.

(** What a returned directive tells about the input: [token_limit] is
    returned only above the token threshold; [remove_tool_result] only when
    the tokens are within the threshold and the tool results are not;
    [remove_tool_call_params] only when tokens and tool results are within
    their thresholds and the tool calls are not.  In all three cases usage is
    present and not 0. *)
Theorem directive_reveals_input tokenCounts messages config (w : Console) d :
  In d (result_of (determineEditStrategies tokenCounts messages config) w) ->
  exists tc, tokenCounts = Some tc /\ total_tokens tc <> 0 /\
    match d with
    | token_limit p =>
      tokenLimitThreshold_of config < total_tokens tc /\
      limit_tokens p = tokenLimitTarget_of config
    | remove_tool_result p =>
      total_tokens tc <= tokenLimitThreshold_of config /\
      toolResultThreshold_of config < toolResultCount_of messages /\
      tool_result_placeholder p = Some "Done"
    | remove_tool_call_params p =>
      total_tokens tc <= tokenLimitThreshold_of config /\
      toolResultCount_of messages <= toolResultThreshold_of config /\
      toolCallThreshold_of config < toolCallCount_of messages
    end.
Proof.
  rewrite determineEditStrategies_decide. unfold decide.
  destruct tokenCounts as [tc|]; [|intros []].
  destruct (total_tokens tc =? 0) eqn:E0; [intros []|apply Z.eqb_neq in E0].
  intros H. exists tc. split; [reflexivity|]. split; [assumption|]. revert H.
  destruct (total_tokens tc >? tokenLimitThreshold_of config) eqn:E1;
    [apply Z.gtb_lt in E1|rewrite Z.gtb_ltb in E1; apply Z.ltb_ge in E1].
  { intros [<-|[]]. cbn. auto. }
  destruct (toolResultCount_of messages >? toolResultThreshold_of config) eqn:E2;
    [apply Z.gtb_lt in E2|rewrite Z.gtb_ltb in E2; apply Z.ltb_ge in E2].
  { intros [<-|[]]. cbn. auto. }
  destruct (toolCallCount_of messages >? toolCallThreshold_of config) eqn:E3;
    [apply Z.gtb_lt in E3|rewrite Z.gtb_ltb in E3; apply Z.ltb_ge in E3].
  { intros [<-|[]]. cbn. auto. }
  intros [].
Qed.

Lemma directive_reveals_input_witness :
  In (RemoveToolCallParams 5)
     (result_of (determineEditStrategies (Some (mkTokenCounts 1000))
                   twelve_tool_calls None) []) /\
  exists tc, Some (mkTokenCounts 1000) = Some tc /\ total_tokens tc <> 0 /\
    total_tokens tc <= tokenLimitThreshold_of None /\
    toolResultCount_of twelve_tool_calls <= toolResultThreshold_of None /\
    toolCallThreshold_of None < toolCallCount_of twelve_tool_calls.
Proof.
  split; [left; reflexivity|].
  apply (directive_reveals_input (Some (mkTokenCounts 1000)) twelve_tool_calls
           None [] (RemoveToolCallParams 5)).
  left; reflexivity.
Defined.

(** ** Messages that do not count *)

(** A message is counted when its role is ["tool"] or its [toolCalls] is
    truthy. *)
Definition counted (msg : Message) : bool :=
  String.eqb (role msg) "tool" || ToBoolean (get_toolCalls msg).

Lemma count_step_not_counted st msg :
  counted msg = false -> count_step st msg = st.
Proof.
  unfold counted, count_step. destruct st as [c r]. intros H.
  apply orb_false_iff in H as [-> ->]. reflexivity.
Qed.

Lemma count_fold_filter messages : forall st,
  fold_left count_step (filter counted messages) st =
  fold_left count_step messages st.
Proof.
  induction messages as [|m ms IH]; intros st; [reflexivity|].
  cbn [filter fold_left]. destruct (counted m) eqn:E.
  - cbn [fold_left]. apply IH.
  - rewrite (count_step_not_counted st m E). apply IH.
Qed.

(** Messages that are neither tool results nor carry tool calls (with an
    absent, empty-string, [0], [false] or [null] [toolCalls]) play no part:
    dropping them all, wherever they stand, changes neither the directives
    nor the log. *)
Theorem uncounted_messages_irrelevant tokenCounts messages config (w : Console) :
  determineEditStrategies tokenCounts (filter counted messages) config w =
  determineEditStrategies tokenCounts messages config w.
Proof.
  apply determineEditStrategies_counts. unfold count_loop.
  apply count_fold_filter.
Qed.

(** ** The log *)

(** With no signal nothing is logged; otherwise the call logs one line of
    analysis and one line for the directive it returns, if any. *)
Theorem lines_logged tokenCounts messages config (w : Console) :
  exists lines,
    console_after (determineEditStrategies tokenCounts messages config) w =
    w ++ lines /\
    List.length lines =
    match tokenCounts with
    | None => 0%nat
    | Some tc =>
      if total_tokens tc =? 0 then 0%nat
      else S (List.length
                (result_of (determineEditStrategies tokenCounts messages config) w))
    end.
Proof.
  unfold console_after, result_of, determineEditStrategies.
  destruct tokenCounts as [tc|]; [|exists []; cbn; now rewrite app_nil_r].
  destruct (total_tokens tc =? 0); [exists []; cbn; now rewrite app_nil_r|].
  destruct (count_loop messages) as [c r].
  unfold bind, ret, console_debug.
  case_guards; cbn [fst snd]; rewrite <- ?app_assoc;
    eexists; (split; [reflexivity|reflexivity]).
Qed.

(** * Error utilities of the chat feature: [src/lib/chat-errors.ts]

    A string is read as its list of characters.  The two [replace] calls of
    [maskSensitiveInfo] are scans of that list: the class [[a-zA-Z0-9]] holds
    ASCII letters and digits only, so the scan does not depend on how other
    characters are encoded. *)

Module ChatErrors.

Local Open Scope nat_scope.

(** The character class [[a-zA-Z0-9]]. *)
Definition is_alnum (c : ascii) : bool :=
  let n := nat_of_ascii c in
  ((97 <=? n) && (n <=? 122)) || ((65 <=? n) && (n <=? 90)) ||
  ((48 <=? n) && (n <=? 57)).

(** Length of the longest prefix of [s] made of [[a-zA-Z0-9]]: what a greedy
    [[a-zA-Z0-9]*] consumes at the head of [s]. *)
Fixpoint run_length (s : list ascii) : nat :=
  match s with
  | c :: s' => if is_alnum c then S (run_length s') else 0
  | [] => 0
  end.

(** [/sk-[a-zA-Z0-9]{32,}/] tried at the head of [s]: the length of the
    match, if any.  The quantifier is greedy and nothing follows it, so the
    match takes the whole run. *)
Definition match_sk (s : list ascii) : option nat :=
  match s with
  | c1 :: c2 :: c3 :: rest =>
    if Ascii.eqb c1 "s" && Ascii.eqb c2 "k" && Ascii.eqb c3 "-"
       && (32 <=? run_length rest)
    then Some (3 + run_length rest) else None
  | _ => None
  end.

(** [/[a-zA-Z0-9]{32,}/] tried at the head of [s]. *)
Definition match_long (s : list ascii) : option nat :=
  if 32 <=? run_length s then Some (run_length s) else None.

(** [s.replace(re, replacer)] for a global [re]: scan from the left; where
    [re] matches, emit the replacement of the matched text and resume after
    it; elsewhere copy one character.  [skip] counts the characters of the
    current match still to be passed over. *)
Fixpoint replace_global (re : list ascii -> option nat)
    (replacer : list ascii -> list ascii) (skip : nat) (s : list ascii)
    : list ascii :=
  match s with
  | [] =>
    match skip, re [] with
    | 0, Some _ => replacer []
    | _, _ => []
    end
  | c :: s' =>
    match skip with
    | S k => replace_global re replacer k s'
    | 0 =>
      match re s with
      | Some (S n) => replacer (firstn (S n) s) ++ replace_global re replacer n s'
      | Some 0 => replacer [] ++ c :: replace_global re replacer 0 s'
      | None => c :: replace_global re replacer 0 s'
      end
    end
  end.

Definition sk_mask : list ascii := list_ascii_of_string "sk-***".

(** The callback of the second [replace]. *)
Definition mask_long (m : list ascii) : list ascii :=
  if 32 <? List.length m then firstn 8 m ++ list_ascii_of_string "***"
  else m.

Definition mask_sk_keys (s : list ascii) : list ascii :=
  replace_global match_sk (fun _ => sk_mask) 0 s.

Definition mask_long_runs (s : list ascii) : list ascii :=
  replace_global match_long mask_long 0 s.

Definition maskSensitiveInfo (message : string) : string :=
  string_of_list_ascii
    (mask_long_runs (mask_sk_keys (list_ascii_of_string message))).


(** Length of the longest run of [[a-zA-Z0-9]] anywhere in [s]. *)
Fixpoint longest_run (s : list ascii) : nat :=
  match s with
  | [] => 0
  | _ :: s' => Nat.max (run_length s) (longest_run s')
  end.

(** [P] holds of [s] and of every suffix of [s]. *)
Fixpoint all_suffixes (P : list ascii -> Prop) (s : list ascii) : Prop :=
  P s /\ match s with
         | [] => True
         | _ :: s' => all_suffixes P s'
         end.

Definition no_sk_key (s : list ascii) : Prop :=
  all_suffixes (fun t => match_sk t = None) s.

(** * Properties of the masking *)

Lemma strong_length_ind (P : list ascii -> Prop) :
  (forall s, (forall t, List.length t < List.length s -> P t) -> P s) ->
  forall s, P s.
Proof.
  intros H s.
  assert (G : forall n t, List.length t < n -> P t).
  { induction n as [|n IH]; intros t Ht; [lia|].
    apply H. intros u Hu. apply IH. lia. }
  apply (G (S (List.length s))). lia.
Qed.

(** ** Runs *)

Lemma run_length_le s : run_length s <= List.length s.
Proof.
  induction s as [|c s IH]; cbn; [lia|]. destruct (is_alnum c); lia.
Qed.

Lemma run_length_skipn s : run_length (skipn (run_length s) s) = 0.
Proof.
  induction s as [|c s IH]; cbn; [reflexivity|].
  destruct (is_alnum c) eqn:E; cbn; [exact IH|now rewrite E].
Qed.

Lemma run_length_app x y :
  forallb is_alnum x = true ->
  run_length (x ++ y) = List.length x + run_length y.
Proof.
  induction x as [|c x IH]; cbn; [reflexivity|].
  intros H. apply andb_true_iff in H as [Hc Hx]. rewrite Hc, IH; auto.
Qed.

Lemma firstn_run_alnum s : forallb is_alnum (firstn (run_length s) s) = true.
Proof.
  induction s as [|c s IH]; cbn; [reflexivity|].
  destruct (is_alnum c) eqn:E; cbn; [now rewrite E|reflexivity].
Qed.

Lemma forallb_firstn (x : list ascii) n :
  forallb is_alnum x = true -> forallb is_alnum (firstn n x) = true.
Proof.
  revert n; induction x as [|c x IH]; intros [|n]; cbn; auto.
  intros H. apply andb_true_iff in H as [Hc Hx]. now rewrite Hc, IH.
Qed.

Lemma longest_run_ge_run s : run_length s <= longest_run s.
Proof. destruct s; cbn; lia. Qed.

Lemma longest_run_app_r a s : longest_run s <= longest_run (a ++ s).
Proof.
  induction a as [|c a IH]; cbn [app longest_run]; lia.
Qed.

(** A stretch of alphanumeric characters anywhere in [s] is no longer than
    [longest_run s]. *)
Lemma longest_run_substring a r b :
  forallb is_alnum r = true -> List.length r <= longest_run (a ++ r ++ b).
Proof.
  intros H.
  pose proof (longest_run_app_r a (r ++ b)).
  pose proof (longest_run_ge_run (r ++ b)).
  rewrite run_length_app in *; auto. lia.
Qed.

Lemma all_suffixes_head P s : all_suffixes P s -> P s.
Proof. destruct s; cbn; tauto. Qed.

Lemma all_suffixes_skipn P n s : all_suffixes P s -> all_suffixes P (skipn n s).
Proof.
  revert s; induction n as [|n IH]; intros [|c s] H; cbn; auto.
  apply IH. apply H.
Qed.

Lemma longest_run_bound n s :
  longest_run s <= n <-> all_suffixes (fun t => run_length t <= n) s.
Proof.
  induction s as [|c s IH]; cbn [longest_run all_suffixes run_length].
  - split; [intros; split; [lia|exact I]|lia].
  - rewrite <- IH. change (if is_alnum c then S (run_length s) else 0)
      with (run_length (c :: s)). lia.
Qed.

(** ** The scan *)

Section Scan.
Variable re : list ascii -> option nat.
Variable replacer : list ascii -> list ascii.

Lemma replace_global_skip n s :
  n <= List.length s ->
  replace_global re replacer n s = replace_global re replacer 0 (skipn n s).
Proof.
  revert s; induction n as [|n IH]; intros s Hn; [reflexivity|].
  destruct s as [|c s]; cbn in Hn; [lia|].
  cbn [replace_global skipn]. apply IH. lia.
Qed.

Lemma replace_global_match s n :
  re s = Some (S n) -> S n <= List.length s ->
  replace_global re replacer 0 s =
  replacer (firstn (S n) s) ++ replace_global re replacer 0 (skipn (S n) s).
Proof.
  intros Hre Hn. destruct s as [|c s]; cbn in Hn; [lia|].
  cbn [replace_global]. rewrite Hre, replace_global_skip by lia. reflexivity.
Qed.

Lemma replace_global_copy c s :
  re (c :: s) = None ->
  replace_global re replacer 0 (c :: s) = c :: replace_global re replacer 0 s.
Proof. intros Hre. cbn [replace_global]. now rewrite Hre. Qed.

End Scan.


(** ** The second pass: long runs *)

Lemma mask_long_runs_nil : mask_long_runs [] = [].
Proof. reflexivity. Qed.

Lemma mask_long_runs_copy c s :
  is_alnum c = false -> mask_long_runs (c :: s) = c :: mask_long_runs s.
Proof.
  intros Hc. unfold mask_long_runs. apply replace_global_copy.
  unfold match_long. cbn [run_length]. now rewrite Hc.
Qed.

Lemma mask_long_short m : List.length m <= 32 -> mask_long m = m.
Proof.
  intros H. unfold mask_long.
  destruct (32 <? List.length m) eqn:E; [|reflexivity].
  apply Nat.ltb_lt in E. lia.
Qed.

Lemma mask_long_runs_short s :
  run_length s < 32 ->
  mask_long_runs s =
  firstn (run_length s) s ++ mask_long_runs (skipn (run_length s) s).
Proof.
  induction s as [|c s IH]; [reflexivity|].
  cbn [run_length]. destruct (is_alnum c) eqn:Hc; intros Hr; [|reflexivity].
  cbn [firstn skipn app]. rewrite <- IH by lia.
  unfold mask_long_runs. apply replace_global_copy.
  unfold match_long. cbn [run_length]. rewrite Hc.
  destruct (32 <=? S (run_length s)) eqn:E; [|reflexivity].
  apply Nat.leb_le in E. lia.
Qed.

(** The second pass treats the run at the head of [s] as a whole, then
    resumes after it. *)
Lemma mask_long_runs_run s :
  mask_long_runs s =
  mask_long (firstn (run_length s) s) ++
  mask_long_runs (skipn (run_length s) s).
Proof.
  pose proof (run_length_le s) as Hle.
  destruct (32 <=? run_length s) eqn:E.
  - apply Nat.leb_le in E.
    destruct (run_length s) as [|n] eqn:Hr; [lia|].
    unfold mask_long_runs. apply replace_global_match; [|lia].
    unfold match_long. rewrite Hr.
    destruct (32 <=? S n) eqn:E'; [reflexivity|].
    apply Nat.leb_gt in E'. lia.
  - apply Nat.leb_gt in E.
    rewrite mask_long_short by (rewrite length_firstn; lia).
    now apply mask_long_runs_short.
Qed.

Lemma run_length_0_mask_long_runs s :
  run_length s = 0 -> run_length (mask_long_runs s) = 0.
Proof.
  destruct s as [|c s]; [reflexivity|]. cbn [run_length].
  destruct (is_alnum c) eqn:Hc; [discriminate|]. intros _.
  rewrite mask_long_runs_copy by assumption. cbn. now rewrite Hc.
Qed.

Lemma longest_run_alnum_app x y :
  forallb is_alnum x = true ->
  longest_run (x ++ y) =
  Nat.max (List.length x + run_length y) (longest_run y).
Proof.
  intros H. induction x as [|c x IH].
  - cbn. pose proof (longest_run_ge_run y). lia.
  - cbn [forallb] in H. apply andb_true_iff in H as [Hc Hx].
    cbn [app longest_run]. rewrite IH by assumption.
    change (c :: x ++ y) with ((c :: x) ++ y).
    rewrite run_length_app by (cbn; now rewrite Hc, Hx).
    cbn [List.length]. lia.
Qed.

Lemma longest_run_skipn n s : longest_run (skipn n s) <= longest_run s.
Proof.
  revert s; induction n as [|n IH]; intros [|c s]; cbn [skipn]; auto.
  cbn [longest_run]. specialize (IH s). lia.
Qed.

Lemma skipn_run_shorter s :
  0 < run_length s ->
  List.length (skipn (run_length s) s) < List.length s.
Proof.
  intros H. pose proof (run_length_le s). rewrite length_skipn. lia.
Qed.

Lemma run_length_0_cases s :
  run_length s = 0 -> s = [] \/ exists c s', s = c :: s' /\ is_alnum c = false.
Proof.
  destruct s as [|c s]; [now left|]. cbn.
  destruct (is_alnum c) eqn:Hc; [discriminate|]. right. now exists c, s.
Qed.

Lemma run_length_stars o : run_length (list_ascii_of_string "***" ++ o) = 0.
Proof. reflexivity. Qed.

Lemma longest_run_stars o :
  longest_run (list_ascii_of_string "***" ++ o) = longest_run o.
Proof. reflexivity. Qed.

(** After the second pass no run is longer than 32. *)
Lemma longest_run_mask_long_runs s : longest_run (mask_long_runs s) <= 32.
Proof.
  induction s as [s IH] using strong_length_ind.
  destruct (run_length s) as [|n] eqn:Hr.
  - destruct (run_length_0_cases s Hr) as [->|(c & s' & -> & Hc)]; [cbn; lia|].
    rewrite mask_long_runs_copy by assumption.
    cbn [longest_run run_length]. rewrite Hc.
    specialize (IH s'). cbn in IH. lia.
  - rewrite mask_long_runs_run.
    pose proof (IH _ (skipn_run_shorter s ltac:(lia))) as IHr.
    pose proof (run_length_0_mask_long_runs _ (run_length_skipn s)) as H0.
    pose proof (run_length_le s) as Hle.
    pose proof (firstn_run_alnum s) as Hal.
    set (x := firstn (run_length s) s) in *.
    set (o := mask_long_runs (skipn (run_length s) s)) in *.
    unfold mask_long. destruct (32 <? List.length x) eqn:E.
    + rewrite <- app_assoc, longest_run_alnum_app by now apply forallb_firstn.
      rewrite length_firstn, run_length_stars, longest_run_stars. lia.
    + apply Nat.ltb_ge in E.
      rewrite longest_run_alnum_app by assumption. lia.
Qed.

(** A text without a run longer than 32 goes through the second pass
    unchanged. *)
Lemma mask_long_runs_fixed s : longest_run s <= 32 -> mask_long_runs s = s.
Proof.
  induction s as [s IH] using strong_length_ind. intros Hs.
  destruct (run_length s) as [|n] eqn:Hr.
  - destruct (run_length_0_cases s Hr) as [->|(c & s' & -> & Hc)]; [reflexivity|].
    rewrite mask_long_runs_copy by assumption. f_equal.
    apply IH; [cbn; lia|]. cbn [longest_run] in Hs. lia.
  - rewrite mask_long_runs_run.
    pose proof (longest_run_ge_run s). pose proof (run_length_le s).
    rewrite mask_long_short by (rewrite length_firstn; lia).
    rewrite IH.
    + apply firstn_skipn.
    + apply skipn_run_shorter. lia.
    + pose proof (longest_run_skipn (run_length s) s). lia.
Qed.

Lemma mask_long_length m : List.length (mask_long m) <= List.length m.
Proof.
  unfold mask_long. destruct (32 <? List.length m) eqn:E; [|lia].
  apply Nat.ltb_lt in E. rewrite length_app, length_firstn.
  change (List.length (list_ascii_of_string "***")) with 3. lia.
Qed.

Lemma mask_long_runs_length s :
  List.length (mask_long_runs s) <= List.length s.
Proof.
  induction s as [s IH] using strong_length_ind.
  destruct (run_length s) as [|n] eqn:Hr.
  - destruct (run_length_0_cases s Hr) as [->|(c & s' & -> & Hc)]; [cbn; lia|].
    rewrite mask_long_runs_copy by assumption. cbn [List.length].
    specialize (IH s'). cbn in IH. lia.
  - rewrite mask_long_runs_run, length_app.
    pose proof (IH _ (skipn_run_shorter s ltac:(lia))) as IHr.
    pose proof (mask_long_length (firstn (run_length s) s)) as Hm.
    assert (List.length s =
            List.length (firstn (run_length s) s) +
            List.length (skipn (run_length s) s)) as Hs
      by now rewrite <- length_app, firstn_skipn.
    lia.
Qed.


(** ** The first pass: [sk-] keys *)

Lemma not_alnum_not_s c : is_alnum c = false -> Ascii.eqb c "s" = false.
Proof.
  intros H. destruct (Ascii.eqb c "s") eqn:E; [|reflexivity].
  apply Ascii.eqb_eq in E. subst c. discriminate H.
Qed.

Lemma not_alnum_not_k c : is_alnum c = false -> Ascii.eqb c "k" = false.
Proof.
  intros H. destruct (Ascii.eqb c "k") eqn:E; [|reflexivity].
  apply Ascii.eqb_eq in E. subst c. discriminate H.
Qed.

Lemma alnum_not_dash c : is_alnum c = true -> Ascii.eqb c "-" = false.
Proof.
  intros H. destruct (Ascii.eqb c "-") eqn:E; [|reflexivity].
  apply Ascii.eqb_eq in E. subst c. discriminate H.
Qed.

Lemma match_sk_short s : List.length s < 3 -> match_sk s = None.
Proof. destruct s as [|c1 [|c2 [|c3 rest]]]; cbn; auto; lia. Qed.

Lemma match_sk_first c1 u : Ascii.eqb c1 "s" = false -> match_sk (c1 :: u) = None.
Proof. intros H. destruct u as [|c2 [|c3 rest]]; cbn; auto. now rewrite H. Qed.

Lemma match_sk_second c1 c2 u :
  Ascii.eqb c2 "k" = false -> match_sk (c1 :: c2 :: u) = None.
Proof.
  intros H. destruct u as [|c3 rest]; cbn; auto.
  now rewrite H, andb_false_r.
Qed.

Lemma match_sk_third c1 c2 c3 u :
  Ascii.eqb c3 "-" = false -> match_sk (c1 :: c2 :: c3 :: u) = None.
Proof. intros H. cbn. now rewrite H, andb_false_r. Qed.

Lemma match_sk_Some s n :
  match_sk s = Some n ->
  exists rest, s = "s"%char :: "k"%char :: "-"%char :: rest /\
               32 <= run_length rest /\ n = 3 + run_length rest.
Proof.
  destruct s as [|c1 [|c2 [|c3 rest]]]; try discriminate. unfold match_sk.
  destruct (Ascii.eqb c1 "s" && Ascii.eqb c2 "k" && Ascii.eqb c3 "-"
            && (32 <=? run_length rest)) eqn:E; [|discriminate].
  intros [= <-]. repeat (apply andb_true_iff in E as [E ?]).
  apply Ascii.eqb_eq in E as ->.
  repeat match goal with H : Ascii.eqb _ _ = true |- _ =>
    apply Ascii.eqb_eq in H as -> end.
  exists rest. repeat split. now apply Nat.leb_le.
Qed.

Lemma match_sk_key rest :
  32 <= run_length rest ->
  match_sk ("s"%char :: "k"%char :: "-"%char :: rest) = Some (3 + run_length rest).
Proof.
  intros H. unfold match_sk. apply Nat.leb_le in H. now rewrite H.
Qed.

Lemma match_sk_run u v :
  run_length u = run_length v ->
  forall c1 c2 c3,
  match_sk (c1 :: c2 :: c3 :: u) = None -> match_sk (c1 :: c2 :: c3 :: v) = None.
Proof.
  intros E c1 c2 c3. unfold match_sk. rewrite E.
  now destruct (Ascii.eqb c1 "s" && Ascii.eqb c2 "k" && Ascii.eqb c3 "-"
                && (32 <=? run_length v)).
Qed.

Lemma mask_sk_keys_nil : mask_sk_keys [] = [].
Proof. reflexivity. Qed.

Lemma mask_sk_keys_copy c s :
  match_sk (c :: s) = None -> mask_sk_keys (c :: s) = c :: mask_sk_keys s.
Proof. intros H. unfold mask_sk_keys. now apply replace_global_copy. Qed.

Lemma mask_sk_keys_match rest :
  32 <= run_length rest ->
  mask_sk_keys ("s"%char :: "k"%char :: "-"%char :: rest) =
  sk_mask ++ mask_sk_keys (skipn (run_length rest) rest).
Proof.
  intros H. unfold mask_sk_keys.
  rewrite (replace_global_match _ _ _ (2 + run_length rest)).
  - reflexivity.
  - now apply match_sk_key.
  - pose proof (run_length_le rest). cbn [List.length]. lia.
Qed.

Lemma mask_sk_keys_firstn s : forall k,
  k <= 3 -> firstn k (mask_sk_keys s) = firstn k s.
Proof.
  induction s as [|c s IH]; intros k Hk; [reflexivity|].
  destruct (match_sk (c :: s)) as [n|] eqn:E.
  - apply match_sk_Some in E as (rest & Hs & Hr & _).
    rewrite Hs, mask_sk_keys_match by assumption.
    destruct k as [|[|[|[|k]]]]; try reflexivity; lia.
  - rewrite mask_sk_keys_copy by assumption.
    destruct k as [|k]; [reflexivity|]. cbn [firstn]. f_equal. apply IH. lia.
Qed.

Lemma mask_sk_keys_run_length s : run_length (mask_sk_keys s) = run_length s.
Proof.
  induction s as [|c s IH]; [reflexivity|].
  destruct (match_sk (c :: s)) as [n|] eqn:E.
  - apply match_sk_Some in E as (rest & Hs & Hr & _).
    rewrite Hs, mask_sk_keys_match by assumption. reflexivity.
  - rewrite mask_sk_keys_copy by assumption. cbn [run_length]. now rewrite IH.
Qed.

Lemma mask_sk_keys_length s : List.length (mask_sk_keys s) <= List.length s.
Proof.
  induction s as [s IH] using strong_length_ind.
  destruct s as [|c s]; [cbn; lia|].
  destruct (match_sk (c :: s)) as [n|] eqn:E.
  - apply match_sk_Some in E as (rest & Hs & Hr & _).
    rewrite Hs, mask_sk_keys_match, length_app by assumption.
    pose proof (run_length_le rest).
    assert (Hlt : List.length (skipn (run_length rest) rest) < List.length (c :: s))
      by (rewrite Hs, length_skipn; cbn [List.length]; lia).
    specialize (IH _ Hlt). rewrite length_skipn in IH.
    change (List.length sk_mask) with 6. cbn [List.length]. lia.
  - rewrite mask_sk_keys_copy by assumption. cbn [List.length].
    specialize (IH s). cbn in IH. lia.
Qed.

(** Where the scan found no key, its output shows none either. *)
Lemma match_sk_mask_sk_keys s :
  match_sk s = None -> match_sk (mask_sk_keys s) = None.
Proof.
  intros H. destruct s as [|c1 [|c2 [|c3 rest]]];
    try (apply match_sk_short;
         eapply Nat.le_lt_trans; [apply mask_sk_keys_length|cbn; lia]).
  rewrite mask_sk_keys_copy by assumption.
  destruct (match_sk (c2 :: c3 :: rest)) as [n|] eqn:E2.
  { apply match_sk_Some in E2 as (r & Hs & Hr & _).
    rewrite Hs, mask_sk_keys_match by assumption.
    now apply match_sk_second. }
  rewrite mask_sk_keys_copy by assumption.
  destruct (match_sk (c3 :: rest)) as [n|] eqn:E3.
  { apply match_sk_Some in E3 as (r & Hs & Hr & _).
    rewrite Hs, mask_sk_keys_match by assumption.
    now apply match_sk_third. }
  rewrite mask_sk_keys_copy by assumption.
  revert H. apply match_sk_run. symmetry. apply mask_sk_keys_run_length.
Qed.

Lemma no_sk_key_sk_mask o : no_sk_key o -> no_sk_key (sk_mask ++ o).
Proof.
  intros H. unfold no_sk_key, sk_mask.
  cbn [list_ascii_of_string app all_suffixes].
  split; [reflexivity|].
  repeat (split; [now apply match_sk_first|]). exact H.
Qed.

Lemma no_sk_key_mask_sk_keys s : no_sk_key (mask_sk_keys s).
Proof.
  induction s as [s IH] using strong_length_ind.
  destruct s as [|c s]; [cbn; auto|].
  destruct (match_sk (c :: s)) as [n|] eqn:E.
  - apply match_sk_Some in E as (rest & Hs & Hr & _).
    rewrite Hs, mask_sk_keys_match by assumption.
    apply no_sk_key_sk_mask, IH.
    rewrite Hs, length_skipn. cbn [List.length]. lia.
  - pose proof (match_sk_mask_sk_keys _ E) as Ho.
    rewrite mask_sk_keys_copy in * by assumption.
    split; [exact Ho|]. apply IH. cbn; lia.
Qed.

Lemma mask_sk_keys_fixed s : no_sk_key s -> mask_sk_keys s = s.
Proof.
  induction s as [|c s IH]; [reflexivity|]. intros [H Hs].
  rewrite mask_sk_keys_copy by assumption. f_equal. now apply IH.
Qed.


(** ** The second pass creates no key *)

Lemma run_length_mask_long_runs s :
  run_length (mask_long_runs s) =
  if run_length s <=? 32 then run_length s else 8.
Proof.
  rewrite mask_long_runs_run.
  pose proof (run_length_0_mask_long_runs _ (run_length_skipn s)) as H0.
  pose proof (run_length_le s) as Hle.
  pose proof (firstn_run_alnum s) as Hal.
  assert (Hx : List.length (firstn (run_length s) s) = run_length s)
    by (rewrite length_firstn; lia).
  set (x := firstn (run_length s) s) in *.
  set (o := mask_long_runs (skipn (run_length s) s)) in *.
  unfold mask_long. rewrite Hx.
  destruct (32 <? run_length s) eqn:E.
  - apply Nat.ltb_lt in E.
    destruct (run_length s <=? 32) eqn:E'; [apply Nat.leb_le in E'; lia|].
    rewrite <- app_assoc, run_length_app by now apply forallb_firstn.
    rewrite length_firstn, run_length_stars. lia.
  - apply Nat.ltb_ge in E.
    destruct (run_length s <=? 32) eqn:E'; [|apply Nat.leb_gt in E'; lia].
    rewrite run_length_app by assumption. lia.
Qed.

Lemma match_sk_alnum_prefix x rest :
  forallb is_alnum x = true -> run_length rest = 0 ->
  match_sk (x ++ rest) = None ->
  match_sk (x ++ mask_long_runs rest) = None.
Proof.
  intros Hx Hr H.
  assert (Hhead : forall c u, rest = c :: u ->
            is_alnum c = false /\ mask_long_runs rest = c :: mask_long_runs u).
  { intros c u ->. cbn in Hr. destruct (is_alnum c) eqn:Hc; [discriminate|].
    split; [reflexivity|]. now apply mask_long_runs_copy. }
  destruct x as [|c1 [|c2 [|c3 x]]]; cbn [app forallb] in *.
  - destruct rest as [|c u]; [reflexivity|].
    destruct (Hhead c u eq_refl) as [Hc ->].
    now apply match_sk_first, not_alnum_not_s.
  - destruct rest as [|c u]; [reflexivity|].
    destruct (Hhead c u eq_refl) as [Hc ->].
    now apply match_sk_second, not_alnum_not_k.
  - destruct rest as [|c u]; [reflexivity|].
    destruct (Hhead c u eq_refl) as [Hc ->].
    unfold match_sk in *. rewrite run_length_mask_long_runs.
    destruct (run_length u <=? 32); [exact H|].
    now rewrite !andb_false_r.
  - apply match_sk_third, alnum_not_dash.
    repeat (apply andb_true_iff in Hx as [? Hx]). assumption.
Qed.

Lemma no_sk_key_alnum_prefix x rest :
  forallb is_alnum x = true -> run_length rest = 0 ->
  no_sk_key (x ++ rest) -> no_sk_key (mask_long_runs rest) ->
  no_sk_key (x ++ mask_long_runs rest).
Proof.
  intros Hx Hr H Ho. induction x as [|c x IH]; [exact Ho|].
  pose proof (match_sk_alnum_prefix (c :: x) rest Hx Hr (all_suffixes_head _ _ H)) as Hm.
  cbn [forallb] in Hx. apply andb_true_iff in Hx as [_ Hx].
  split; [exact Hm|]. apply IH; [assumption|]. apply H.
Qed.

Lemma no_sk_key_stars o : no_sk_key o -> no_sk_key (list_ascii_of_string "***" ++ o).
Proof.
  intros H. unfold no_sk_key. cbn [list_ascii_of_string app all_suffixes].
  repeat (split; [now apply match_sk_first|]). exact H.
Qed.

Lemma no_sk_key_truncated y o :
  forallb is_alnum y = true -> no_sk_key o ->
  no_sk_key (y ++ list_ascii_of_string "***" ++ o).
Proof.
  intros Hy Ho. induction y as [|c1 y IH]; [now apply no_sk_key_stars|].
  cbn [forallb] in Hy. apply andb_true_iff in Hy as [Hc Hy].
  split; [|now apply IH].
  destruct y as [|c2 [|c3 y]]; cbn [app list_ascii_of_string].
  - now apply match_sk_second.
  - now apply match_sk_third.
  - apply match_sk_third, alnum_not_dash. cbn [forallb] in Hy.
    repeat (apply andb_true_iff in Hy as [? Hy]). assumption.
Qed.

Lemma no_sk_key_mask_long_runs s : no_sk_key s -> no_sk_key (mask_long_runs s).
Proof.
  induction s as [s IH] using strong_length_ind. intros Hs.
  destruct (run_length s) as [|n] eqn:Hr.
  - destruct (run_length_0_cases s Hr) as [->|(c & s' & -> & Hc)]; [exact Hs|].
    rewrite mask_long_runs_copy by assumption.
    split; [now apply match_sk_first, not_alnum_not_s|].
    apply IH; [cbn; lia|apply Hs].
  - rewrite mask_long_runs_run.
    assert (Ho : no_sk_key (mask_long_runs (skipn (run_length s) s))).
    { apply IH; [apply skipn_run_shorter; lia|now apply all_suffixes_skipn]. }
    pose proof (firstn_run_alnum s) as Hal.
    unfold mask_long. destruct (32 <? _).
    + rewrite <- app_assoc. apply no_sk_key_truncated; [|assumption].
      now apply forallb_firstn.
    + apply no_sk_key_alnum_prefix; try assumption.
      * apply run_length_skipn.
      * now rewrite firstn_skipn.
Qed.

Lemma no_sk_key_short_runs s : longest_run s < 32 -> no_sk_key s.
Proof.
  induction s as [|c s IH]; [cbn; auto|]. intros H.
  split; [|apply IH; cbn [longest_run] in H; lia].
  destruct (match_sk (c :: s)) as [n|] eqn:E; [|reflexivity].
  apply match_sk_Some in E as (rest & Hs & Hr & _).
  pose proof (longest_run_skipn 3 (c :: s)) as H3. rewrite Hs in H3 at 1.
  cbn [skipn] in H3. pose proof (longest_run_ge_run rest). lia.
Qed.

(** ** Strings *)

Lemma list_ascii_of_string_app a b :
  list_ascii_of_string (a ++ b)%string =
  list_ascii_of_string a ++ list_ascii_of_string b.
Proof. induction a as [|c a IH]; cbn; [reflexivity|now rewrite IH]. Qed.

Lemma length_list_ascii_of_string s :
  List.length (list_ascii_of_string s) = String.length s.
Proof. induction s as [|c s IH]; cbn; [reflexivity|now rewrite IH]. Qed.

Lemma string_of_list_ascii_app a b :
  string_of_list_ascii (a ++ b) =
  (string_of_list_ascii a ++ string_of_list_ascii b)%string.
Proof. induction a as [|c a IH]; cbn; [reflexivity|now rewrite IH]. Qed.

Lemma string_of_list_ascii_firstn n : forall l,
  string_of_list_ascii (firstn n l) = substring 0 n (string_of_list_ascii l).
Proof.
  induction n as [|n IH]; intros [|c l]; cbn; try reflexivity.
  now rewrite IH.
Qed.

Lemma maskSensitiveInfo_chars message :
  list_ascii_of_string (maskSensitiveInfo message) =
  mask_long_runs (mask_sk_keys (list_ascii_of_string message)).
Proof. apply list_ascii_of_string_of_list_ascii. Qed.


Lemma no_sk_key_alnum x : forallb is_alnum x = true -> no_sk_key x.
Proof.
  intros Hx. induction x as [|c1 x IH]; [cbn; auto|].
  cbn [forallb] in Hx. apply andb_true_iff in Hx as [Hc Hx].
  split; [|now apply IH].
  destruct x as [|c2 [|c3 x]]; try (apply match_sk_short; cbn; lia).
  apply match_sk_third, alnum_not_dash. cbn [forallb] in Hx.
  repeat (apply andb_true_iff in Hx as [? Hx]). assumption.
Qed.

Lemma mask_long_runs_sk_mask o :
  mask_long_runs (sk_mask ++ o) = sk_mask ++ mask_long_runs o.
Proof.
  rewrite mask_long_runs_run.
  change (run_length (sk_mask ++ o)) with 2.
  unfold sk_mask. cbn [list_ascii_of_string app firstn skipn].
  rewrite mask_long_short by (cbn; lia).
  now rewrite !mask_long_runs_copy by reflexivity.
Qed.

(** ** What the masking guarantees *)

(** No stretch of more than 32 alphanumeric characters is left in a masked
    message. *)
Theorem maskSensitiveInfo_no_long_run message a r b :
  maskSensitiveInfo message = (a ++ r ++ b)%string ->
  forallb is_alnum (list_ascii_of_string r) = true ->
  String.length r <= 32.
Proof.
  intros E Hr. apply (f_equal list_ascii_of_string) in E.
  rewrite maskSensitiveInfo_chars, !list_ascii_of_string_app in E.
  pose proof (longest_run_mask_long_runs
                (mask_sk_keys (list_ascii_of_string message))) as H.
  rewrite E in H.
  pose proof (longest_run_substring (list_ascii_of_string a) _
                (list_ascii_of_string b) Hr) as H'.
  rewrite length_list_ascii_of_string in H'. lia.
Qed.

(** Masking twice is masking once. *)
Theorem maskSensitiveInfo_idempotent message :
  maskSensitiveInfo (maskSensitiveInfo message) = maskSensitiveInfo message.
Proof.
  unfold maskSensitiveInfo at 1. rewrite maskSensitiveInfo_chars.
  set (o := mask_long_runs (mask_sk_keys (list_ascii_of_string message))).
  assert (Hk : no_sk_key o)
    by apply no_sk_key_mask_long_runs, no_sk_key_mask_sk_keys.
  rewrite (mask_sk_keys_fixed o Hk).
  rewrite (mask_long_runs_fixed o) by apply longest_run_mask_long_runs.
  reflexivity.
Qed.

(** The messages left as they are: those without an [sk-] key and without
    a run of more than 32 alphanumeric characters. *)
Theorem maskSensitiveInfo_unchanged_iff message :
  maskSensitiveInfo message = message <->
  longest_run (list_ascii_of_string message) <= 32 /\
  no_sk_key (list_ascii_of_string message).
Proof.
  split.
  - intros E. apply (f_equal list_ascii_of_string) in E.
    rewrite maskSensitiveInfo_chars in E. rewrite <- E. split.
    + apply longest_run_mask_long_runs.
    + apply no_sk_key_mask_long_runs, no_sk_key_mask_sk_keys.
  - intros [Hl Hk]. unfold maskSensitiveInfo.
    rewrite (mask_sk_keys_fixed _ Hk), (mask_long_runs_fixed _ Hl).
    apply string_of_list_ascii_of_string.
Qed.

(** An [sk-] key of 32 or more characters at the head of a message is
    replaced whole by [sk-***]; the rest is masked on its own. *)
Theorem maskSensitiveInfo_sk_key key rest :
  forallb is_alnum (list_ascii_of_string key) = true ->
  32 <= String.length key ->
  run_length (list_ascii_of_string rest) = 0 ->
  maskSensitiveInfo ("sk-" ++ key ++ rest) =
  ("sk-***" ++ maskSensitiveInfo rest)%string.
Proof.
  intros Hk Hl Hr. unfold maskSensitiveInfo.
  rewrite !list_ascii_of_string_app.
  cbn [list_ascii_of_string app].
  pose proof (run_length_app _ (list_ascii_of_string rest) Hk) as Hrun.
  rewrite Hr, Nat.add_0_r, length_list_ascii_of_string in Hrun.
  rewrite mask_sk_keys_match by lia.
  rewrite Hrun, <- (length_list_ascii_of_string key), skipn_app, skipn_all,
    Nat.sub_diag.
  cbn [app skipn]. rewrite mask_long_runs_sk_mask.
  now rewrite string_of_list_ascii_app.
Qed.

(** A message that is one alphanumeric token: over 32 characters it is cut
    to its first 8 followed by [***]; up to 32 (32 included) it is kept. *)
Theorem maskSensitiveInfo_token key :
  forallb is_alnum (list_ascii_of_string key) = true ->
  maskSensitiveInfo key =
  if 32 <? String.length key then (substring 0 8 key ++ "***")%string
  else key.
Proof.
  intros Hk. unfold maskSensitiveInfo.
  rewrite (mask_sk_keys_fixed _ (no_sk_key_alnum _ Hk)).
  rewrite mask_long_runs_run.
  pose proof (run_length_app _ [] Hk) as Hrun.
  rewrite app_nil_r, Nat.add_0_r in Hrun.
  rewrite Hrun, firstn_all, skipn_all, mask_long_runs_nil, app_nil_r.
  unfold mask_long. rewrite length_list_ascii_of_string.
  destruct (32 <? String.length key).
  - now rewrite string_of_list_ascii_app, string_of_list_ascii_firstn,
      string_of_list_ascii_of_string.
  - apply string_of_list_ascii_of_string.
Qed.

(** Masking never makes a message longer. *)
Theorem maskSensitiveInfo_length message :
  String.length (maskSensitiveInfo message) <= String.length message.
Proof.
  rewrite <- !length_list_ascii_of_string, maskSensitiveInfo_chars.
  etransitivity; [apply mask_long_runs_length|apply mask_sk_keys_length].
Qed.


Definition token40 : string := "abcdefghijklmnopqrstuvwxyz0123456789ABCD".
Definition token32 : string := "abcdefghijklmnopqrstuvwxyz012345".

Lemma maskSensitiveInfo_no_long_run_witness :
  maskSensitiveInfo ("token " ++ token40) = ("token " ++ "abcdefgh" ++ "***")%string /\
  forallb is_alnum (list_ascii_of_string "abcdefgh") = true /\
  String.length "abcdefgh" <= 32.
Proof.
  split; [reflexivity|]. split; [reflexivity|].
  apply (maskSensitiveInfo_no_long_run ("token " ++ token40) "token " "abcdefgh" "***");
    reflexivity.
Defined.

Lemma maskSensitiveInfo_unchanged_iff_witness :
  maskSensitiveInfo "Request failed with status 404" =
  "Request failed with status 404".
Proof.
  apply (proj2 (maskSensitiveInfo_unchanged_iff "Request failed with status 404")).
  split; [vm_compute; lia|].
  apply no_sk_key_short_runs. vm_compute. lia.
Defined.

Lemma maskSensitiveInfo_sk_key_witness :
  forallb is_alnum (list_ascii_of_string token32) = true /\
  32 <= String.length token32 /\
  run_length (list_ascii_of_string ": rejected") = 0 /\
  maskSensitiveInfo ("sk-" ++ token32 ++ ": rejected") =
  ("sk-***" ++ maskSensitiveInfo ": rejected")%string.
Proof.
  split; [reflexivity|]. split; [vm_compute; lia|]. split; [reflexivity|].
  apply (maskSensitiveInfo_sk_key token32 ": rejected");
    [reflexivity|vm_compute; lia|reflexivity].
Defined.

Lemma maskSensitiveInfo_token_witness :
  forallb is_alnum (list_ascii_of_string token40) = true /\
  maskSensitiveInfo token40 =
  (if 32 <? String.length token40 then (substring 0 8 token40 ++ "***")%string
   else token40).
Proof.
  split; [reflexivity|].
  apply (maskSensitiveInfo_token token40). reflexivity.
Defined.

Example maskSensitiveInfo_keeps_32 : maskSensitiveInfo token32 = token32.
Proof. reflexivity. Qed.

(** ** [createChatError] and [formatErrorResponse] *)

(** A caught value, as [formatErrorResponse] tells them apart: an instance
    of [Error], with its [message] and its [stack], or any other value. *)
Inductive Thrown : Type :=
| ErrorInstance (message : string) (stack : option string)
| Value (v : JsValue).

(** [typeof v === "object"] *)
Definition typeof_object (v : JsValue) : bool :=
  match v with
  | JsNull | JsArray _ | JsObject _ => true
  | _ => false
  end.

Definition is_null (v : JsValue) : bool :=
  match v with
  | JsNull => true
  | _ => false
  end.

(** [key in v] for an object [v] and a key that is no array index and no
    built-in property. *)
Definition has_property (key : string) (v : JsValue) : bool :=
  match v with
  | JsObject fields => existsb (fun kv => String.eqb (fst kv) key) fields
  | _ => false
  end.

(** [v[key]]: the value of the property, [undefined] when there is none. *)
Definition get_property (key : string) (v : JsValue) : JsValue :=
  match v with
  | JsObject fields =>
    match find (fun kv => String.eqb (fst kv) key) fields with
    | Some kv => snd kv
    | None => JsUndefined
    end
  | _ => JsUndefined
  end.

(** [{ code, message, details }] *)
Definition createChatError (code message : string) (details : JsValue) : JsValue :=
  JsObject [("code", JsString code);
            ("message", JsString message);
            ("details", details)].

(** The test of the second [if] of [formatErrorResponse]. *)
Definition is_coded_object (error : JsValue) : bool :=
  typeof_object error && negb (is_null error) && has_property "code" error.

Section FormatErrorResponse.

(** [String(v)], the conversion of a value to a string. *)
Variable String_of : JsValue -> string.

Definition formatErrorResponse (error : Thrown) (includeDetails : option bool)
    : JsValue :=
  let includeDetails := nullish includeDetails false in
  match error with
  | ErrorInstance error_message error_stack =>
    let message := maskSensitiveInfo error_message in
    createChatError "CHAT_ERROR" message
      (if includeDetails
       then match error_stack with
            | Some stack => JsString stack
            | None => JsUndefined
            end
       else JsUndefined)
  | Value error =>
    if is_coded_object error then error
    else
      createChatError "UNKNOWN_ERROR" "An unexpected error occurred"
        (if includeDetails then JsString (String_of error) else JsUndefined)
  end.

(** Every response is an object with a [code], so formatting a response
    again returns it as it is. *)
Theorem formatErrorResponse_again error includeDetails includeDetails' :
  is_coded_object (formatErrorResponse error includeDetails) = true /\
  formatErrorResponse (Value (formatErrorResponse error includeDetails))
    includeDetails' =
  formatErrorResponse error includeDetails.
Proof.
  assert (H : is_coded_object (formatErrorResponse error includeDetails) = true).
  { destruct error as [m st|v]; cbn [formatErrorResponse]; [reflexivity|].
    destruct (is_coded_object v) eqn:E; [exact E|reflexivity]. }
  split; [exact H|].
  cbn [formatErrorResponse]. now rewrite H.
Qed.

(** Unless [includeDetails] is [true], the response carries no details:
    neither the stack of an [Error] nor the text of another value.  (An
    object that already has a [code] is returned untouched.) *)
Theorem formatErrorResponse_no_details error includeDetails :
  includeDetails <> Some true ->
  (forall v, error = Value v -> is_coded_object v = false) ->
  get_property "details" (formatErrorResponse error includeDetails) =
  JsUndefined.
Proof.
  intros Hd Hv.
  assert (E : nullish includeDetails false = false)
    by (destruct includeDetails as [[|]|]; [congruence|reflexivity..]).
  destruct error as [m st|v]; cbn [formatErrorResponse]; rewrite E;
    [reflexivity|].
  now rewrite (Hv v eq_refl).
Qed.

(** For an [Error] the response is exactly
    [{ code: "CHAT_ERROR", message: maskSensitiveInfo(error.message),
       details }], with [details] the stack when [includeDetails] is [true]
    and the error has one, [undefined] otherwise.  The message reported is
    therefore the masked one: no run of more than 32 alphanumeric characters
    and no [sk-] key is left in it, and it is no longer than the original. *)
Theorem formatErrorResponse_masks_message error_message stack includeDetails :
  formatErrorResponse (ErrorInstance error_message stack) includeDetails =
  JsObject
    [("code", JsString "CHAT_ERROR");
     ("message", JsString (maskSensitiveInfo error_message));
     ("details",
      match includeDetails, stack with
      | Some true, Some s => JsString s
      | _, _ => JsUndefined
      end)] /\
  exists message,
    message = maskSensitiveInfo error_message /\
    get_property "message"
      (formatErrorResponse (ErrorInstance error_message stack) includeDetails) =
    JsString message /\
    get_property "code"
      (formatErrorResponse (ErrorInstance error_message stack) includeDetails) =
    JsString "CHAT_ERROR" /\
    longest_run (list_ascii_of_string message) <= 32 /\
    no_sk_key (list_ascii_of_string message) /\
    String.length message <= String.length error_message.
Proof.
  split.
  { cbn [formatErrorResponse]. unfold createChatError.
    destruct includeDetails as [[|]|], stack as [s|]; reflexivity. }
  exists (maskSensitiveInfo error_message).
  split; [reflexivity|]. split; [reflexivity|]. split; [reflexivity|].
  rewrite <- !length_list_ascii_of_string, maskSensitiveInfo_chars.
  split; [apply longest_run_mask_long_runs|].
  split; [apply no_sk_key_mask_long_runs, no_sk_key_mask_sk_keys|].
  etransitivity; [apply mask_long_runs_length|apply mask_sk_keys_length].
Qed.

End FormatErrorResponse.

(** A key in the message of an [Error] does not reach the response. *)
Example formatErrorResponse_hides_key :
  formatErrorResponse (fun _ => "")
    (ErrorInstance ("401 for key sk-" ++ token40) None) None =
  JsObject [("code", JsString "CHAT_ERROR");
            ("message", JsString "401 for key sk-***");
            ("details", JsUndefined)].
Proof. vm_compute. reflexivity. Qed.

Lemma formatErrorResponse_no_details_witness :
  get_property "details"
    (formatErrorResponse (fun _ => "[object Object]")
       (ErrorInstance "boom" (Some "Error: boom at f (a.js:1:1)")) None) =
  JsUndefined.
Proof.
  apply (formatErrorResponse_no_details (fun _ => "[object Object]")
           (ErrorInstance "boom" (Some "Error: boom at f (a.js:1:1)")) None).
  - discriminate.
  - discriminate.
Defined.

End ChatErrors.

(** * The Acontext integration: the functions around the policy

    [getAcontextTokenCounts] produces the [TokenCounts] the policy reads,
    [loadMessagesFromAcontext] consumes the [EditStrategy] list it returns,
    [searchRelevantContext] reads the same message store, and
    [extractErrorInfo] is the local function of [logAcontextError] that
    walks an error and its causes.

    The SDK client is not part of the repository: what [getAcontextClient()]
    returns and what its methods answer are parameters.  A request either
    returns or throws; [await] is sequencing.  [console.debug] lines are
    appended to a log; [logAcontextError], which only writes diagnostics,
    is a parameter acting on that log. *)

Module Acontext.

Import ChatErrors.

(** ** Errors and their causes *)

(** A caught value: an [Error] with its [message], [name], [stack], its
    [cause] if it has one, and its other properties, or any other value. *)
Inductive ErrValue : Type :=
| AnError (message name : string) (stack : option string)
          (cause : option ErrValue) (props : list (string * JsValue))
| NotError (v : JsValue).

(** Truthiness of [err.cause]. *)
Definition truthy_cause (cause : ErrValue) : bool :=
  match cause with
  | AnError _ _ _ _ _ => true
  | NotError v => ToBoolean v
  end.

(** The two fields of [errorDetails] that [extractErrorInfo] writes. *)
Record ErrorDetails : Type := mkErrorDetails {
  type : option string;
  diagnosis : option string
}.

(** [s.includes(needle)] *)
Definition includes (s needle : string) : bool :=
  match index 0 needle s with
  | Some _ => true
  | None => false
  end.

(** The test of [// Network error detection], on the lower-cased message. *)
Definition is_network_message (errorMsg : string) : bool :=
  includes errorMsg "fetch failed" ||
  includes errorMsg "econnrefused" ||
  includes errorMsg "enotfound" ||
  includes errorMsg "etimedout" ||
  includes errorMsg "econnreset" ||
  includes errorMsg "certificate" ||
  includes errorMsg "ssl" ||
  includes errorMsg "tls".

(** The [// Provide specific diagnosis] chain. *)
Definition diagnose (errorMsg : string) : string :=
  if includes errorMsg "enotfound" then
    "DNS resolution failed - cannot resolve hostname"
  else if includes errorMsg "econnrefused" then
    "Connection refused - server may be down or firewall blocking"
  else if includes errorMsg "etimedout" then
    "Connection timeout - network may be slow or unreachable"
  else if includes errorMsg "certificate" || includes errorMsg "ssl"
          || includes errorMsg "tls" then
    "SSL/TLS certificate error - check certificate validity"
  else
    "Network request failed - check connectivity, firewall, and proxy settings".

(** [if (key in err) info[key] = err[key]] *)
Definition copy_prop (key : string) (props : list (string * JsValue))
    (info : list (string * JsValue)) : list (string * JsValue) :=
  if has_property key (JsObject props)
  then info ++ [(key, get_property key (JsObject props))]
  else info.

Definition opt_string (s : option string) : JsValue :=
  match s with
  | Some x => JsString x
  | None => JsUndefined
  end.

Section ExtractErrorInfo.

(** [s.toLowerCase()], [JSON.stringify(v)] (which may throw) and
    [String(v)]. *)
Variable toLowerCase : string -> string.
Variable JSON_stringify : JsValue -> option string.
Variable String_of : JsValue -> string.

(** [extractErrorInfo(err, depth)], with the [errorDetails] of the
    enclosing function passed in and returned. *)
Fixpoint extractErrorInfo (err : ErrValue) (depth : nat)
    (errorDetails : ErrorDetails)
    : list (string * JsValue) * ErrorDetails :=
  if (5 <? depth)%nat then
    ([("message", JsString "Error chain too deep")], errorDetails)
  else
    match err with
    | AnError message name stack cause props =>
      let info := [("message", JsString message);
                   ("name", JsString name);
                   ("stack", opt_string stack)] in
      let '(info, errorDetails) :=
        match cause with
        | Some c =>
          if truthy_cause c then
            let '(cause_info, errorDetails) :=
              extractErrorInfo c (S depth) errorDetails in
            (info ++ [("cause", JsObject cause_info)], errorDetails)
          else (info, errorDetails)
        | None => (info, errorDetails)
        end in
      let info := copy_prop "code" props info in
      let info := copy_prop "errno" props info in
      let info := copy_prop "syscall" props info in
      let info := copy_prop "hostname" props info in
      let info := copy_prop "port" props info in
      let errorMsg := toLowerCase message in
      let errorDetails :=
        if is_network_message errorMsg then
          mkErrorDetails (Some "network_error") (Some (diagnose errorMsg))
        else errorDetails in
      (info, errorDetails)
    | NotError v =>
      if ToBoolean v && typeof_object v then
        ([("rawError",
           JsString match JSON_stringify v with
                    | Some s => s
                    | None => String_of v
                    end)],
         errorDetails)
      else ([("error", JsString (String_of v))], errorDetails)
    end.

End ExtractErrorInfo.


(** ** The SDK client *)

(** What a request does: it returns a value or throws. *)
Inductive Outcome (A : Type) : Type :=
| Returns (a : A)
| Throws (error : ErrValue).
Arguments Returns {A} a.
Arguments Throws {A} error.

(** The answer of [sessions.getTokenCounts], read through
    [tokenCounts.total_tokens]. *)
Record TokenCountsResponse : Type := mkTokenCountsResponse {
  response_total_tokens : option Z
}.

(** The options of [sessions.getMessages]. *)
Record GetMessagesOptions : Type := mkGetMessagesOptions {
  format : string;
  editStrategies : option (list EditStrategy);
  limit : option Q
}.

(** The answer of [sessions.getMessages], read through [messages.items]. *)
Record MessagesResponse : Type := mkMessagesResponse {
  items : option (list JsValue)
}.

Record AcontextClient : Type := mkAcontextClient {
  sessions_getTokenCounts : string -> Outcome (option TokenCountsResponse);
  sessions_getMessages :
    string -> GetMessagesOptions -> Outcome (option MessagesResponse)
}.

(** ** The log *)

Inductive LogEvent : Type :=
| Debug (message : string) (payload : JsValue).

Definition Log : Type := list LogEvent.

(** ** Pieces of JavaScript *)

(** [a || b] *)
Definition or_else (a b : JsValue) : JsValue :=
  if ToBoolean a then a else b.

(** [!s] for a string. *)
Definition is_empty (s : string) : bool := String.eqb s "".

(** [s.type] *)
Definition strategy_type (s : EditStrategy) : string :=
  match s with
  | token_limit _ => "token_limit"
  | remove_tool_result _ => "remove_tool_result"
  | remove_tool_call_params _ => "remove_tool_call_params"
  end.

(** [arr.slice(start)] for an integer [start]: a negative [start] counts
    from the end. *)
Definition slice {A : Type} (start : Z) (arr : list A) : list A :=
  let len := Z.of_nat (List.length arr) in
  let k := if start <? 0 then Z.max (len + start) 0 else Z.min start len in
  skipn (Z.to_nat k) arr.

(** [ToIntegerOrInfinity] on a finite number: the fraction is dropped,
    rounding towards 0.  It is what [slice] does to its argument. *)
Definition ToIntegerOrInfinity (x : Q) : Z :=
  Z.quot (Qnum x) (Z.pos (Qden x)).

(** The decimal writing of an array index. *)
Definition index_to_string (index : nat) : string :=
  DecimalString.NilZero.string_of_uint (Nat.to_uint index).

(** [arr.map(f)] where [f] may throw: the first exception ends the map. *)
Fixpoint map_indexed {A B : Type} (f : A -> nat -> Outcome B)
    (arr : list A) (index : nat) : Outcome (list B) :=
  match arr with
  | [] => Returns []
  | x :: rest =>
    match f x index with
    | Throws e => Throws e
    | Returns y =>
      match map_indexed f rest (S index) with
      | Throws e => Throws e
      | Returns ys => Returns (y :: ys)
      end
    end
  end.

(** A message as [loadMessagesFromAcontext] returns it. *)
Record ChatMessage : Type := mkChatMessage {
  chat_id : JsValue;
  chat_sessionId : string;
  chat_role : JsValue;
  chat_content : string;
  chat_createdAt : JsValue;
  chat_toolCalls : JsValue
}.

(** A message as [searchRelevantContext] returns it. *)
Record ContextMessage : Type := mkContextMessage {
  context_role : JsValue;
  context_content : string
}.

Section Service.

(** [getAcontextClient()]: the client, or [null] when not configured. *)
Variable getAcontextClient : option AcontextClient.

(** [logAcontextError(operation, error, context)], on the log. *)
Variable logAcontextError : string -> ErrValue -> JsValue -> Log -> Log.

(** [JSON.stringify(v)] and [String(v)], either of which may throw; the
    [Date] made by [new Date()]; the [TypeError] of reading a property of
    [null] or [undefined]. *)
Variable JSON_stringify : JsValue -> Outcome string.
Variable String_of : JsValue -> Outcome string.
Variable new_Date : JsValue.
Variable null_property_error : ErrValue.

(** The value of a number that need not be an integer, as it is written to
    the log ([JsNumber] holds the integers). *)
Variable number_value : Q -> JsValue.

Definition getAcontextTokenCounts (acontextSessionId : string) (log : Log)
    : option TokenCounts * Log :=
  match getAcontextClient with
  | None => (None, log)
  | Some acontext =>
    if is_empty acontextSessionId then (None, log)
    else
      let log :=
        log ++ [Debug "[Acontext] Getting token counts"
                  (JsObject [("acontextSessionId", JsString acontextSessionId)])] in
      match sessions_getTokenCounts acontext acontextSessionId with
      | Throws error =>
        (None,
         logAcontextError "Failed to get token counts" error
           (JsObject [("acontextSessionId", JsString acontextSessionId)]) log)
      | Returns None =>
        (None, log ++ [Debug "[Acontext] No token counts available" JsUndefined])
      | Returns (Some tokenCounts) =>
        let log :=
          log ++ [Debug "[Acontext] Token counts retrieved"
                    (JsObject [("total_tokens",
                                match response_total_tokens tokenCounts with
                                | Some n => JsNumber n
                                | None => JsUndefined
                                end)])] in
        (Some (mkTokenCounts
                 (match response_total_tokens tokenCounts with
                  | Some n => if n =? 0 then 0 else n
                  | None => 0
                  end)),
         log)
      end
  end.

(** The callback of [messages.items.map] in [loadMessagesFromAcontext]. *)
Definition to_chat_message (acontextSessionId : string) (msg : JsValue)
    (index : nat) : Outcome ChatMessage :=
  match msg with
  | JsUndefined | JsNull => Throws null_property_error
  | _ =>
    let content :=
      match get_property "content" msg with
      | JsString s => Returns s
      | JsArray elems => JSON_stringify (JsArray elems)
      | v => String_of v
      end in
    match content with
    | Throws e => Throws e
    | Returns content =>
      Returns
        (mkChatMessage
           (or_else (get_property "id" msg)
              (JsString ("acontext-" ++ index_to_string index)))
           acontextSessionId
           (or_else (get_property "role" msg) (JsString "user"))
           content
           (or_else (get_property "created_at" msg)
              (or_else (get_property "timestamp" msg) new_Date))
           (or_else (get_property "tool_calls" msg) JsUndefined))
    end
  end.

(** [editStrategies?.length || 0] *)
Definition strategies_length (editStrategies : option (list EditStrategy)) : Z :=
  match editStrategies with
  | Some l => Z.of_nat (List.length l)
  | None => 0
  end.

(** [editStrategies?.map((s) => s.type)] *)
Definition strategies_types (editStrategies : option (list EditStrategy)) : JsValue :=
  match editStrategies with
  | Some l => JsArray (map (fun s => JsString (strategy_type s)) l)
  | None => JsUndefined
  end.

Definition loadMessagesFromAcontext (acontextSessionId : string)
    (editStrategies : option (list EditStrategy)) (log : Log)
    : list ChatMessage * Log :=
  match getAcontextClient with
  | None => ([], log)
  | Some acontext =>
    if is_empty acontextSessionId then ([], log)
    else
      let catch error log :=
        ([], logAcontextError "Failed to load messages" error
               (JsObject [("acontextSessionId", JsString acontextSessionId);
                          ("editStrategies", strategies_types editStrategies)])
               log) in
      let log :=
        log ++ [Debug "[Acontext] Loading messages"
                  (JsObject [("acontextSessionId", JsString acontextSessionId);
                             ("editStrategies",
                              JsNumber (strategies_length editStrategies))])] in
      let '(options, log) :=
        match editStrategies with
        | Some (s :: l) =>
          (mkGetMessagesOptions "openai" (Some (s :: l)) None,
           log ++ [Debug "[Acontext] Applying edit strategies"
                     (JsObject [("strategies",
                                 strategies_types (Some (s :: l)))])])
        | _ => (mkGetMessagesOptions "openai" None None, log)
        end in
      match sessions_getMessages acontext acontextSessionId options with
      | Throws error => catch error log
      | Returns messages =>
        match messages with
        | None | Some (mkMessagesResponse None)
        | Some (mkMessagesResponse (Some [])) =>
          ([], log ++ [Debug "[Acontext] No messages found in session" JsUndefined])
        | Some (mkMessagesResponse (Some messages_items)) =>
          match map_indexed (to_chat_message acontextSessionId) messages_items 0 with
          | Throws error => catch error log
          | Returns chatMessages =>
            (chatMessages,
             log ++ [Debug "[Acontext] Loaded messages"
                       (JsObject [("count",
                                   JsNumber (Z.of_nat (List.length chatMessages)));
                                  ("strategiesApplied",
                                   JsNumber (strategies_length editStrategies))])])
          end
        end
      end
  end.

(** The callback of [.map] in [searchRelevantContext]. *)
Definition to_context_message (msg : JsValue) (index : nat)
    : Outcome ContextMessage :=
  match msg with
  | JsUndefined | JsNull => Throws null_property_error
  | _ =>
    let role := or_else (get_property "role" msg) (JsString "user") in
    match get_property "content" msg with
    | JsString s => Returns (mkContextMessage role s)
    | v =>
      match String_of v with
      | Throws e => Throws e
      | Returns s => Returns (mkContextMessage role s)
      end
    end
  end.

Definition searchRelevantContext (query : string)
    (acontextSessionId : option string) (limit : option Q) (log : Log)
    : list ContextMessage * Log :=
  let limit := nullish limit 5%Q in
  match getAcontextClient, acontextSessionId with
  | Some acontext, Some acontextSessionId =>
    if is_empty acontextSessionId then ([], log)
    else
      let context :=
        JsObject [("acontextSessionId", JsString acontextSessionId);
                  ("query", JsString query);
                  ("limit", number_value limit)] in
      let log := log ++ [Debug "[Acontext] Searching relevant context" context] in
      match sessions_getMessages acontext acontextSessionId
              (mkGetMessagesOptions "openai" None (Some (limit * 2)%Q)) with
      | Throws error =>
        ([], logAcontextError "Failed to search relevant context" error context log)
      | Returns messages =>
        match messages with
        | None | Some (mkMessagesResponse None)
        | Some (mkMessagesResponse (Some [])) =>
          ([], log ++ [Debug "[Acontext] No messages found in session" JsUndefined])
        | Some (mkMessagesResponse (Some messages_items)) =>
          match map_indexed to_context_message
                  (slice (ToIntegerOrInfinity (- limit)%Q) messages_items) 0 with
          | Throws error =>
            ([], logAcontextError "Failed to search relevant context" error
                   context log)
          | Returns relevantMessages =>
            (relevantMessages,
             log ++ [Debug "[Acontext] Found relevant messages"
                       (JsObject [("count",
                                   JsNumber (Z.of_nat (List.length relevantMessages)))])])
          end
        end
      end
  | _, _ => ([], log)
  end.

End Service.


(** ** Properties of [extractErrorInfo] *)

(** The messages of the errors that [extractErrorInfo] visits when it may
    still go [levels] levels down: the error itself, then its causes as long
    as they are truthy [Error]s. *)
Fixpoint visited_messages (levels : nat) (err : ErrValue) : list string :=
  match levels with
  | O => []
  | S levels' =>
    match err with
    | AnError message _ _ cause _ =>
      message ::
      match cause with
      | Some c => if truthy_cause c then visited_messages levels' c else []
      | None => []
      end
    | NotError _ => []
    end
  end.

(** [info.cause.cause...], [n] times. *)
Fixpoint nth_cause (n : nat) (info : JsValue) : JsValue :=
  match n with
  | O => info
  | S n' => nth_cause n' (get_property "cause" info)
  end.

Definition too_deep : JsValue :=
  JsObject [("message", JsString "Error chain too deep")].

Lemma find_app_first {A : Type} (f : A -> bool) l1 l2 :
  find f (l1 ++ l2) =
  match find f l1 with
  | Some x => Some x
  | None => find f l2
  end.
Proof.
  induction l1 as [|x l1 IH]; [reflexivity|]. cbn. now destruct (f x).
Qed.

Lemma get_property_copy_prop key key' props info :
  String.eqb key' key = false ->
  get_property key (JsObject (copy_prop key' props info)) =
  get_property key (JsObject info).
Proof.
  intros Hk. unfold copy_prop.
  destruct (has_property key' (JsObject props)); [|reflexivity].
  cbn [get_property]. rewrite find_app_first.
  destruct (find _ info); [reflexivity|]. cbn [find fst]. now rewrite Hk.
Qed.

Lemma nth_cause_undefined n : nth_cause n JsUndefined = JsUndefined.
Proof. induction n as [|n IH]; [reflexivity|exact IH]. Qed.

Section ExtractErrorInfoFacts.

Variable toLowerCase : string -> string.
Variable JSON_stringify : JsValue -> option string.
Variable String_of : JsValue -> string.

Local Abbreviation extract :=
  (extractErrorInfo toLowerCase JSON_stringify String_of).

Definition network_message (message : string) : bool :=
  is_network_message (toLowerCase message).

(** The diagnosis written by [extractErrorInfo(error)] is that of the
    outermost error of the cause chain (down to 6 errors) whose message names
    a network failure; with no such error [errorDetails] is left as it
    was. *)
Theorem extractErrorInfo_outermost_network_error err errorDetails :
  snd (extract err 0 errorDetails) =
  match find network_message (visited_messages 6 err) with
  | Some message =>
    mkErrorDetails (Some "network_error") (Some (diagnose (toLowerCase message)))
  | None => errorDetails
  end.
Proof.
  enough (G : forall levels depth e d,
    (depth + levels = 6)%nat ->
    snd (extract e depth d) =
    match find network_message (visited_messages levels e) with
    | Some message =>
      mkErrorDetails (Some "network_error")
        (Some (diagnose (toLowerCase message)))
    | None => d
    end) by now apply G.
  clear err errorDetails.
  induction levels as [|levels IH]; intros depth err errorDetails Hd.
  - assert (E : (5 <? depth)%nat = true) by (apply Nat.ltb_lt; lia).
    destruct err; cbn [extractErrorInfo]; now rewrite E.
  - assert (E : (5 <? depth)%nat = false) by (apply Nat.ltb_ge; lia).
    destruct err as [message name stack cause props|v];
      cbn [extractErrorInfo visited_messages]; rewrite E;
      [|now destruct (ToBoolean v && typeof_object v)].
    cbn [find]. unfold network_message at 1.
    destruct (is_network_message (toLowerCase message)).
    + destruct cause as [c|]; [destruct (truthy_cause c)|]; try reflexivity.
      now destruct (extract c (S depth) errorDetails).
    + destruct cause as [c|]; [destruct (truthy_cause c)|]; try reflexivity.
      rewrite <- (IH (S depth) c errorDetails) by lia.
      now destruct (extract c (S depth) errorDetails).
Qed.

(** The report of [extractErrorInfo(error)] nests at most 6 causes: below
    the sixth there is nothing, and the sixth, if there is one, is the
    marker [{ message: "Error chain too deep" }]. *)
Theorem extractErrorInfo_depth_cut err errorDetails :
  let info := JsObject (fst (extract err 0 errorDetails)) in
  (nth_cause 6 info = JsUndefined \/ nth_cause 6 info = too_deep) /\
  nth_cause 7 info = JsUndefined.
Proof.
  enough (G : forall levels depth e d,
    (depth + levels = 6)%nat ->
    let info := JsObject (fst (extract e depth d)) in
    (nth_cause levels info = JsUndefined \/ nth_cause levels info = too_deep) /\
    nth_cause (S levels) info = JsUndefined) by now apply G.
  clear err errorDetails.
  induction levels as [|levels IH]; intros depth err errorDetails Hd.
  - assert (E : (5 <? depth)%nat = true) by (apply Nat.ltb_lt; lia).
    destruct err; cbn [extractErrorInfo]; rewrite E; cbn; auto.
  - assert (E : (5 <? depth)%nat = false) by (apply Nat.ltb_ge; lia).
    destruct err as [message name stack cause props|v];
      cbn [extractErrorInfo]; rewrite E.
    + assert (Hno : forall n,
        nth_cause n (get_property "cause"
          (JsObject [("message", JsString message); ("name", JsString name);
                     ("stack", opt_string stack)])) = JsUndefined)
        by (intros n; apply nth_cause_undefined).
      destruct cause as [c|]; [destruct (truthy_cause c)|];
        try (cbn [fst nth_cause];
             rewrite !get_property_copy_prop by reflexivity;
             rewrite !Hno; auto).
      pose proof (IH (S depth) c errorDetails ltac:(lia)) as Hi.
      destruct (extract c (S depth) errorDetails) as [ci d'].
      cbn [fst nth_cause]. rewrite !get_property_copy_prop by reflexivity.
      exact Hi.
    + destruct (ToBoolean v && typeof_object v); cbn [fst nth_cause];
        change (get_property "cause" (JsObject _)) with JsUndefined;
        rewrite !nth_cause_undefined; auto.
Qed.

End ExtractErrorInfoFacts.


(** [toLowerCase] on the letters [A]-[Z]. *)
Definition ascii_toLowerCase (s : string) : string :=
  string_of_list_ascii
    (map (fun c =>
            let n := nat_of_ascii c in
            if ((65 <=? n) && (n <=? 90))%nat then ascii_of_nat (n + 32) else c)
         (list_ascii_of_string s)).

(** A failed [fetch] whose cause is a failed DNS lookup is reported with the
    diagnosis of the outer error, not with the one of its cause. *)
Example fetch_failed_hides_dns_failure :
  snd (extractErrorInfo ascii_toLowerCase (fun _ => None) (fun _ => "")
         (AnError "fetch failed" "TypeError" None
            (Some (AnError "getaddrinfo ENOTFOUND api.acontext.com" "Error"
                     None None [("code", JsString "ENOTFOUND")]))
            [])
         0 (mkErrorDetails None None)) =
  mkErrorDetails (Some "network_error")
    (Some "Network request failed - check connectivity, firewall, and proxy settings").
Proof. vm_compute. reflexivity. Qed.

(** ** Properties of the service functions *)

Lemma map_indexed_length {A B : Type} (f : A -> nat -> Outcome B) arr :
  forall index ys,
  map_indexed f arr index = Returns ys -> List.length ys = List.length arr.
Proof.
  induction arr as [|x rest IH]; intros index ys H; cbn in H.
  - now injection H as <-.
  - destruct (f x index); [|discriminate].
    destruct (map_indexed f rest (S index)) eqn:E; [|discriminate].
    injection H as <-. cbn. f_equal. now apply (IH (S index)).
Qed.

Lemma map_indexed_In {A B : Type} (f : A -> nat -> Outcome B) arr :
  forall index ys y,
  map_indexed f arr index = Returns ys -> In y ys ->
  exists x j, In x arr /\ f x j = Returns y.
Proof.
  induction arr as [|x rest IH]; intros index ys y H Hy; cbn in H.
  - injection H as <-. destruct Hy.
  - destruct (f x index) as [y0|] eqn:Ef; [|discriminate].
    destruct (map_indexed f rest (S index)) eqn:E; [|discriminate].
    injection H as <-. destruct Hy as [<-|Hy].
    + exists x, index. split; [now left|assumption].
    + destruct (IH (S index) _ y E Hy) as (x' & j & Hx & Hf).
      exists x', j. split; [now right|assumption].
Qed.

Lemma map_indexed_throws {A B : Type} (f : A -> nat -> Outcome B) arr x :
  In x arr -> (forall j, exists e, f x j = Throws e) ->
  forall index, exists e, map_indexed f arr index = Throws e.
Proof.
  intros Hx Hf. induction arr as [|x' rest IH]; intros index; [destruct Hx|].
  cbn. destruct Hx as [->|Hx].
  - destruct (Hf index) as [e ->]. now exists e.
  - destruct (f x' index); [|now eexists].
    destruct (IH Hx (S index)) as [e ->]. now exists e.
Qed.

Lemma slice_last_length {A : Type} (n : Z) (arr : list A) :
  0 < n -> Z.of_nat (List.length (slice (- n) arr)) <= n.
Proof.
  intros Hn. unfold slice. rewrite length_skipn.
  destruct (- n <? 0) eqn:E; [|apply Z.ltb_ge in E; lia]. lia.
Qed.

Lemma ToIntegerOrInfinity_opp (x : Q) :
  (0 <= x)%Q -> ToIntegerOrInfinity (- x)%Q = - Qfloor x.
Proof.
  destruct x as [n d]. unfold Qle, ToIntegerOrInfinity, Qfloor, Qopp.
  cbn [Qnum Qden]. intros H.
  rewrite Z.quot_opp_l by lia. rewrite Z.quot_div_nonneg by lia. reflexivity.
Qed.

Lemma Qfloor_ge_1 (x : Q) : (1 <= x)%Q -> 1 <= Qfloor x.
Proof.
  intros H. change 1 with (Qfloor 1). now apply Qfloor_resp_le.
Qed.

Lemma slice_0 {A : Type} (arr : list A) : slice (- 0) arr = arr.
Proof.
  unfold slice. cbn [Z.opp Z.ltb Z.compare].
  rewrite Z.min_l by lia. reflexivity.
Qed.

Section ServiceFacts.

Variable getAcontextClient : option AcontextClient.
Variable logAcontextError : string -> ErrValue -> JsValue -> Log -> Log.
Variable JSON_stringify : JsValue -> Outcome string.
Variable String_of : JsValue -> Outcome string.
Variable new_Date : JsValue.
Variable null_property_error : ErrValue.
Variable number_value : Q -> JsValue.

Local Abbreviation tokenCounts_of :=
  (getAcontextTokenCounts getAcontextClient logAcontextError).
Local Abbreviation load :=
  (loadMessagesFromAcontext getAcontextClient logAcontextError JSON_stringify
     String_of new_Date null_property_error).
Local Abbreviation search :=
  (searchRelevantContext getAcontextClient logAcontextError String_of
     null_property_error number_value).

(** When the service gives no count, [getAcontextTokenCounts] yields [null]
    or a count of 0. *)
Lemma getAcontextTokenCounts_no_signal acontextSessionId (log : Log) :
  (forall acontext response n,
     getAcontextClient = Some acontext ->
     sessions_getTokenCounts acontext acontextSessionId = Returns (Some response) ->
     response_total_tokens response = Some n -> n = 0) ->
  fst (tokenCounts_of acontextSessionId log) = None \/
  fst (tokenCounts_of acontextSessionId log) = Some (mkTokenCounts 0).
Proof.
  intros H. unfold getAcontextTokenCounts.
  destruct getAcontextClient as [acontext|]; [|now left].
  destruct (is_empty acontextSessionId); [now left|].
  destruct (sessions_getTokenCounts acontext acontextSessionId)
    as [[response|]|error] eqn:E; try (now left).
  right. cbn [fst].
  destruct (response_total_tokens response) as [n|] eqn:En; [|reflexivity].
  now rewrite (H acontext response n eq_refl E En).
Qed.

(** Unless the service answers with a total other than 0, the policy fed
    with the outcome of [getAcontextTokenCounts] asks for no edit: this
    covers a missing client, an empty session id, a failed request, an empty
    answer and an answer without a total. *)
Theorem no_count_no_directive acontextSessionId (log : Log) messages config
    (w : Console) :
  (forall acontext response n,
     getAcontextClient = Some acontext ->
     sessions_getTokenCounts acontext acontextSessionId = Returns (Some response) ->
     response_total_tokens response = Some n -> n = 0) ->
  result_of
    (determineEditStrategies (fst (tokenCounts_of acontextSessionId log))
       messages config) w = [].
Proof.
  intros H. rewrite determineEditStrategies_decide.
  now destruct (getAcontextTokenCounts_no_signal acontextSessionId log H)
    as [-> | ->].
Qed.

(** An empty list of strategies loads the same messages as no list: the
    request then carries no [editStrategies]. *)
Theorem loadMessages_empty_strategies acontextSessionId (log : Log) :
  fst (load acontextSessionId (Some []) log) =
  fst (load acontextSessionId None log).
Proof.
  unfold loadMessagesFromAcontext.
  destruct getAcontextClient as [acontext|]; [|reflexivity].
  destruct (is_empty acontextSessionId); [reflexivity|].
  destruct (sessions_getMessages acontext acontextSessionId
              (mkGetMessagesOptions "openai" None None))
    as [[[[[|msg rest]|]]|]|error]; try reflexivity.
  now destruct (map_indexed _ (msg :: rest) 0).
Qed.

(** Every message returned by [loadMessagesFromAcontext] belongs to the
    session asked for, has a truthy [id], [role] and [createdAt], and a
    [toolCalls] that is either [undefined] or truthy. *)
Theorem loadMessages_shape acontextSessionId editStrategies (log : Log) m :
  ToBoolean new_Date = true ->
  In m (fst (load acontextSessionId editStrategies log)) ->
  chat_sessionId m = acontextSessionId /\
  ToBoolean (chat_id m) = true /\
  ToBoolean (chat_role m) = true /\
  ToBoolean (chat_createdAt m) = true /\
  (chat_toolCalls m = JsUndefined \/ ToBoolean (chat_toolCalls m) = true).
Proof.
  intros Hdate. unfold loadMessagesFromAcontext.
  destruct getAcontextClient as [acontext|]; [|intros []].
  destruct (is_empty acontextSessionId); [intros []|].
  assert (Hconv : forall x j,
    to_chat_message JSON_stringify String_of new_Date null_property_error
      acontextSessionId x j = Returns m ->
    chat_sessionId m = acontextSessionId /\
    ToBoolean (chat_id m) = true /\
    ToBoolean (chat_role m) = true /\
    ToBoolean (chat_createdAt m) = true /\
    (chat_toolCalls m = JsUndefined \/ ToBoolean (chat_toolCalls m) = true)).
  { intros x j Hx. unfold to_chat_message in Hx.
    assert (Hm : exists content,
      m = mkChatMessage
            (or_else (get_property "id" x)
               (JsString ("acontext-" ++ index_to_string j)))
            acontextSessionId
            (or_else (get_property "role" x) (JsString "user"))
            content
            (or_else (get_property "created_at" x)
               (or_else (get_property "timestamp" x) new_Date))
            (or_else (get_property "tool_calls" x) JsUndefined)).
    { destruct x; try discriminate;
        match type of Hx with
        | match ?c with Returns _ => _ | Throws _ => _ end = _ =>
          destruct c as [content|]; [|discriminate]
        end;
        injection Hx as <-; now exists content. }
    destruct Hm as [content ->]. cbn [chat_sessionId chat_id chat_role
      chat_createdAt chat_toolCalls]. unfold or_else.
    split; [reflexivity|].
    split; [destruct (ToBoolean (get_property "id" x)) eqn:E; [exact E|reflexivity]|].
    split; [destruct (ToBoolean (get_property "role" x)) eqn:E; [exact E|reflexivity]|].
    split.
    - destruct (ToBoolean (get_property "created_at" x)) eqn:E; [exact E|].
      destruct (ToBoolean (get_property "timestamp" x)) eqn:E'; [exact E'|exact Hdate].
    - destruct (ToBoolean (get_property "tool_calls" x)) eqn:E; [now right|now left]. }
  destruct editStrategies as [[|s l]|];
    (destruct (sessions_getMessages acontext acontextSessionId _)
       as [[[[[|msg rest]|]]|]|error]; try (intros []);
     destruct (map_indexed _ (msg :: rest) 0) as [ms|e] eqn:E; [|intros []];
     cbn [fst]; intros Hin;
     destruct (map_indexed_In _ _ _ _ _ E Hin) as (x & j & _ & Hx);
     exact (Hconv x j Hx)).
Qed.

(** One [null] or [undefined] item in the answer of the service discards
    the whole batch: no message is returned. *)
Theorem loadMessages_null_item acontextSessionId editStrategies (log : Log)
    acontext messages_items item :
  getAcontextClient = Some acontext ->
  (forall options,
     sessions_getMessages acontext acontextSessionId options =
     Returns (Some (mkMessagesResponse (Some messages_items)))) ->
  In item messages_items ->
  item = JsNull \/ item = JsUndefined ->
  fst (load acontextSessionId editStrategies log) = [].
Proof.
  intros Hc Hs Hin Hitem. unfold loadMessagesFromAcontext. rewrite Hc.
  destruct (is_empty acontextSessionId); [reflexivity|].
  assert (Hthrow : exists e,
    map_indexed (to_chat_message JSON_stringify String_of new_Date
                   null_property_error acontextSessionId) messages_items 0 =
    Throws e).
  { apply (map_indexed_throws _ _ item Hin). intros j.
    exists null_property_error. now destruct Hitem as [-> | ->]. }
  destruct Hthrow as [e He].
  destruct editStrategies as [[|s l]|]; rewrite Hs;
    (destruct messages_items as [|msg rest]; [reflexivity|]);
    now rewrite He.
Qed.

(** With a [limit] of at least 1 (5 when omitted), integer or not,
    [searchRelevantContext] returns at most [limit] messages: at most the
    integer part of [limit]. *)
Theorem searchRelevantContext_at_most_limit query acontextSessionId limit
    (log : Log) :
  (1 <= nullish limit 5)%Q ->
  Z.of_nat (List.length (fst (search query acontextSessionId limit log))) <=
  Qfloor (nullish limit 5%Q) /\
  (inject_Z
     (Z.of_nat (List.length (fst (search query acontextSessionId limit log)))) <=
   nullish limit 5)%Q.
Proof.
  intros Hl.
  assert (Hf : 1 <= Qfloor (nullish limit 5%Q)) by now apply Qfloor_ge_1.
  assert (Hz : Z.of_nat (List.length (fst (search query acontextSessionId limit log))) <=
               Qfloor (nullish limit 5%Q)).
  { unfold searchRelevantContext.
    destruct getAcontextClient as [acontext|]; [|cbn [fst List.length]; lia].
    destruct acontextSessionId as [id|]; [|cbn [fst List.length]; lia].
    destruct (is_empty id); [cbn [fst List.length]; lia|].
    destruct (sessions_getMessages acontext id _)
      as [[[[[|msg rest]|]]|]|error]; try (cbn [fst List.length]; lia).
    destruct (map_indexed _ _ 0) as [ms|e] eqn:E; [|cbn [fst List.length]; lia].
    cbn [fst]. rewrite (map_indexed_length _ _ _ _ E).
    rewrite ToIntegerOrInfinity_opp
      by (apply Qle_trans with (y := 1%Q); [discriminate|exact Hl]).
    apply slice_last_length. lia. }
  split; [exact Hz|].
  apply Qle_trans with (y := inject_Z (Qfloor (nullish limit 5%Q))).
  - now rewrite <- Zle_Qle.
  - apply Qfloor_le.
Qed.

(** With [limit] 0 the request asks for 0 messages, and every message the
    service returns all the same is handed on: [slice(-0)] keeps the whole
    array. *)
Theorem searchRelevantContext_limit_0 query acontextSessionId (log : Log)
    acontext messages_items relevantMessages :
  getAcontextClient = Some acontext ->
  is_empty acontextSessionId = false ->
  sessions_getMessages acontext acontextSessionId
    (mkGetMessagesOptions "openai" None (Some 0%Q)) =
  Returns (Some (mkMessagesResponse (Some messages_items))) ->
  map_indexed (to_context_message String_of null_property_error)
    messages_items 0 = Returns relevantMessages ->
  fst (search query (Some acontextSessionId) (Some 0%Q) log) = relevantMessages.
Proof.
  intros Hc Hid Hs Hm. unfold searchRelevantContext. rewrite Hc, Hid.
  cbn [nullish]. change (0 * 2)%Q with 0%Q. rewrite Hs.
  destruct messages_items as [|msg rest].
  - cbn in Hm. now injection Hm as <-.
  - change (ToIntegerOrInfinity (- 0)%Q) with (- 0).
    rewrite slice_0, Hm. reflexivity.
Qed.

End ServiceFacts.


(** ** A sample service *)

Definition sample_items : list JsValue :=
  [JsObject [("id", JsString "m1"); ("role", JsString "user");
             ("content", JsString "list my files")];
   JsObject [("role", JsString "assistant"); ("content", JsNull);
             ("tool_calls", JsArray [JsObject [("id", JsString "call_1")]])];
   JsObject [("role", JsString "tool"); ("content", JsString "a.txt");
             ("tool_calls", JsArray [])]].

Definition sample_client : AcontextClient :=
  mkAcontextClient
    (fun _ => Returns (Some (mkTokenCountsResponse None)))
    (fun _ _ => Returns (Some (mkMessagesResponse (Some sample_items)))).

Definition broken_client : AcontextClient :=
  mkAcontextClient
    (fun _ => Throws (AnError "fetch failed" "TypeError" None None []))
    (fun _ _ =>
       Returns (Some (mkMessagesResponse (Some (sample_items ++ [JsNull]))))).

Definition sample_log_error (operation : string) (error : ErrValue)
    (context : JsValue) (log : Log) : Log := log.
Definition sample_stringify (v : JsValue) : Outcome string := Returns "[...]".
Definition sample_String (v : JsValue) : Outcome string := Returns "null".
Definition sample_Date : JsValue := JsObject [].
Definition sample_TypeError : ErrValue :=
  AnError "Cannot read properties of null" "TypeError" None None [].

Definition sample_load :=
  loadMessagesFromAcontext (Some sample_client) sample_log_error
    sample_stringify sample_String sample_Date sample_TypeError.

Lemma no_count_no_directive_witness :
  result_of
    (determineEditStrategies
       (fst (getAcontextTokenCounts (Some sample_client) sample_log_error
               "session-1" []))
       six_tool_results None) [] = [].
Proof.
  apply (no_count_no_directive (Some sample_client) sample_log_error
           "session-1" [] six_tool_results None []).
  intros acontext response n Hc Hs Hn.
  injection Hc as <-. cbn in Hs. injection Hs as <-. discriminate Hn.
Defined.

Lemma loadMessages_shape_witness :
  let m := mkChatMessage (JsString "acontext-2") "session-1" (JsString "tool")
             "a.txt" sample_Date (JsArray []) in
  ToBoolean sample_Date = true /\
  In m (fst (sample_load "session-1" None [])) /\
  chat_sessionId m = "session-1" /\
  ToBoolean (chat_id m) = true /\
  ToBoolean (chat_role m) = true /\
  ToBoolean (chat_createdAt m) = true /\
  (chat_toolCalls m = JsUndefined \/ ToBoolean (chat_toolCalls m) = true).
Proof.
  intros m. split; [reflexivity|].
  split; [right; right; left; reflexivity|].
  apply (loadMessages_shape (Some sample_client) sample_log_error
           sample_stringify sample_String sample_Date sample_TypeError
           "session-1" None [] m).
  - reflexivity.
  - right; right; left; reflexivity.
Defined.

Lemma loadMessages_null_item_witness :
  In JsNull (sample_items ++ [JsNull]) /\
  fst (loadMessagesFromAcontext (Some broken_client) sample_log_error
         sample_stringify sample_String sample_Date sample_TypeError
         "session-1" None []) = [].
Proof.
  split; [apply in_or_app; right; left; reflexivity|].
  apply (loadMessages_null_item (Some broken_client) sample_log_error
           sample_stringify sample_String sample_Date sample_TypeError
           "session-1" None [] broken_client (sample_items ++ [JsNull]) JsNull).
  - reflexivity.
  - reflexivity.
  - apply in_or_app; right; left; reflexivity.
  - left; reflexivity.
Defined.

Definition sample_number (x : Q) : JsValue := JsNumber (Qfloor x).

Lemma searchRelevantContext_at_most_limit_witness :
  (1 <= nullish (Some (5 # 2)) 5)%Q /\
  Z.of_nat (List.length
              (fst (searchRelevantContext (Some sample_client) sample_log_error
                      sample_String sample_TypeError sample_number
                      "files" (Some "session-1") (Some (5 # 2)) []))) <=
  Qfloor (nullish (Some (5 # 2)) 5%Q) /\
  (inject_Z
     (Z.of_nat (List.length
                  (fst (searchRelevantContext (Some sample_client)
                          sample_log_error sample_String sample_TypeError
                          sample_number
                          "files" (Some "session-1") (Some (5 # 2)) [])))) <=
   nullish (Some (5 # 2)) 5)%Q.
Proof.
  split; [vm_compute; discriminate|].
  apply (searchRelevantContext_at_most_limit (Some sample_client)
           sample_log_error sample_String sample_TypeError sample_number
           "files" (Some "session-1") (Some (5 # 2)) []).
  vm_compute; discriminate.
Defined.

Lemma searchRelevantContext_limit_0_witness :
  fst (searchRelevantContext (Some sample_client) sample_log_error
         sample_String sample_TypeError sample_number
         "files" (Some "session-1") (Some 0%Q) []) =
  [mkContextMessage (JsString "user") "list my files";
   mkContextMessage (JsString "assistant") "null";
   mkContextMessage (JsString "tool") "a.txt"].
Proof.
  apply (searchRelevantContext_limit_0 (Some sample_client) sample_log_error
           sample_String sample_TypeError sample_number "files" "session-1" []
           sample_client sample_items); reflexivity.
Defined.

Example searchRelevantContext_last_two :
  fst (searchRelevantContext (Some sample_client) sample_log_error
         sample_String sample_TypeError sample_number
         "files" (Some "session-1") (Some 2%Q) []) =
  [mkContextMessage (JsString "assistant") "null";
   mkContextMessage (JsString "tool") "a.txt"].
Proof. reflexivity. Qed.

(** A [limit] of 5/2 keeps the last two messages; a [limit] between 0 and
    1 keeps them all, as [limit] 0 does. *)
Example searchRelevantContext_fractional_limit :
  List.length
    (fst (searchRelevantContext (Some sample_client) sample_log_error
            sample_String sample_TypeError sample_number
            "files" (Some "session-1") (Some (5 # 2)) [])) = 2%nat /\
  List.length
    (fst (searchRelevantContext (Some sample_client) sample_log_error
            sample_String sample_TypeError sample_number
            "files" (Some "session-1") (Some (1 # 2)) [])) = 3%nat.
Proof. split; reflexivity. Qed.

End Acontext.
